(** * Firestore mutations (packages/firestore/src/model/mutation.ts)

    A shallow embedding of the mutation model of the Firestore client:
    preconditions, field masks, field transforms, mutation results and the
    four kinds of mutation with their remote and local application and
    their equality.  Classes become records or inductive types, methods
    become functions named [Class_method] that take the receiver first, and
    the assertions of util/assert become the [Fatal] outcome of [Result]. *)

From Stdlib Require Import ZArith.
From stdpp Require Import base option list strings gmap fin_maps.

Local Open Scope string_scope.

(** ** Fatal assertions

    [assert] and [fail] of util/assert throw; a method that can throw
    returns a [Result]. *)

Inductive Result (A : Type) : Type :=
| Ok (a : A)
| Fatal (message : string).

Arguments Ok {A} a.
Arguments Fatal {A} message.

#[global] Instance Result_bind : MBind Result := fun A B k r =>
  match r with
  | Ok a => k a
  | Fatal message => Fatal message
  end.

Definition assert (assertion : bool) (message : string) : Result unit :=
  if assertion then Ok tt else Fatal message.

Definition isFatal {A : Type} (r : Result A) : Prop :=
  match r with
  | Ok _ => False
  | Fatal _ => True
  end.

(** ** The collaborators of mutation.ts *)

(** Modelled from the spec: Timestamp (api/timestamp.ts is not among the
    sources), the wall-clock time of a local write. *)
Record Timestamp : Type := { seconds : Z; nanoseconds : Z }.

#[global] Instance Timestamp_eq_dec : EqDecision Timestamp.
Proof. solve_decision. Defined.

(** Modelled from the spec: SnapshotVersion (core/snapshot_version.ts is
    not among the sources), a logical timestamp with a minimum sentinel MIN
    and a separate sentinel, forDeletedDoc, that marks a client-only
    deletion and compares distinctly from MIN. *)
Inductive SnapshotVersion : Type :=
| SnapshotVersion_at (time : N)
| SnapshotVersion_forDeletedDoc.

Definition SnapshotVersion_MIN : SnapshotVersion :=
  SnapshotVersion_at 0.

#[global] Instance SnapshotVersion_eq_dec : EqDecision SnapshotVersion.
Proof. solve_decision. Defined.

Definition SnapshotVersion_isEqual (this other : SnapshotVersion) : bool :=
  bool_decide (this = other).

(** Modelled from the spec: DocumentKey (model/document_key.ts is not among
    the sources), the comparable identity of a document. *)
Record DocumentKey : Type := { path : list string }.

#[global] Instance DocumentKey_eq_dec : EqDecision DocumentKey.
Proof. solve_decision. Defined.

Definition DocumentKey_isEqual (this other : DocumentKey) : bool :=
  bool_decide (this = other).

(** Modelled from the spec: FieldPath (model/path.ts is not among the
    sources), a dotted field path given by its segments. *)
Abbreviation FieldPath := (list string).

Definition FieldPath_isEqual (this other : FieldPath) : bool :=
  bool_decide (this = other).

(** Modelled from the spec: FieldValue (model/field_value.ts is not among
    the sources).  ServerTimestampValue is the local placeholder of a
    server timestamp; it carries the local write time and the previous
    value of the field, if any. *)
#[warnings="-register-all"]
Inductive FieldValue : Type :=
| IntegerValue (internalValue : Z)
| StringValue (internalValue : string)
| ServerTimestampValue (localWriteTime : Timestamp)
                       (previousValue : option FieldValue).

#[global] Instance FieldValue_eq_dec : EqDecision FieldValue.
Proof.
  refine (fix go (a b : FieldValue) {struct a} : Decision (a = b) :=
    match a, b with
    | IntegerValue x, IntegerValue y => cast_if (decide (x = y))
    | StringValue x, StringValue y => cast_if (decide (x = y))
    | ServerTimestampValue t1 p1, ServerTimestampValue t2 p2 =>
        cast_if_and (decide (t1 = t2))
          (match p1, p2 return Decision (p1 = p2) with
           | Some x, Some y => cast_if (go x y)
           | None, None => left _
           | _, _ => right _
           end)
    | _, _ => right _
    end); congruence.
Defined.

(** Modelled from the spec: ObjectValue (model/field_value.ts is not among
    the sources), an immutable container of field values keyed by field
    path, with [field], [set], [delete] and the constant EMPTY.  Each field
    path is a key of its own; objects nested inside an object are not part
    of this model. *)
Abbreviation ObjectValue := (gmap (list string) FieldValue).

Definition ObjectValue_EMPTY : ObjectValue := ∅.

Definition ObjectValue_field (this : ObjectValue) (path : FieldPath)
  : option FieldValue :=
  this !! path.

Definition ObjectValue_set (this : ObjectValue) (path : FieldPath)
    (to : FieldValue) : ObjectValue :=
  <[path := to]> this.

Definition ObjectValue_delete (this : ObjectValue) (path : FieldPath)
  : ObjectValue :=
  delete path this.

Definition ObjectValue_isEqual (this other : ObjectValue) : bool :=
  bool_decide (this = other).

(** Modelled from the spec: MaybeDocument (model/document.ts is not among
    the sources), either a Document with its data or a NoDocument; a
    nullable MaybeDocument is an [option MaybeDocument]. *)
Inductive MaybeDocument : Type :=
| Document (key : DocumentKey) (version : SnapshotVersion)
           (data : ObjectValue) (hasLocalMutations : bool)
| NoDocument (key : DocumentKey) (version : SnapshotVersion).

Definition MaybeDocument_key (this : MaybeDocument) : DocumentKey :=
  match this with
  | Document key _ _ _ => key
  | NoDocument key _ => key
  end.

Definition MaybeDocument_version (this : MaybeDocument) : SnapshotVersion :=
  match this with
  | Document _ version _ _ => version
  | NoDocument _ version => version
  end.

Definition Document_field (data : ObjectValue) (path : FieldPath)
  : option FieldValue :=
  ObjectValue_field data path.

(** Modelled from the spec: equals and arrayEquals of util/misc (not among
    the sources): equality of two optional values, and order-sensitive
    equality of two sequences, both through the elements' isEqual. *)
Definition misc_equals {A : Type} (isEqual : A -> A -> bool)
    (left right : option A) : bool :=
  match left, right with
  | Some l, Some r => isEqual l r
  | None, None => true
  | _, _ => false
  end.

Fixpoint misc_arrayEquals {A : Type} (isEqual : A -> A -> bool)
    (left right : list A) : bool :=
  match left, right with
  | [], [] => true
  | l :: left', r :: right' => isEqual l r && misc_arrayEquals isEqual left' right'
  | _, _ => false
  end.

(** ** FieldMask, TransformOperation, FieldTransform, MutationResult *)

Record FieldMask : Type := { fields : list FieldPath }.

Definition FieldMask_isEqual (this other : FieldMask) : bool :=
  misc_arrayEquals FieldPath_isEqual (fields this) (fields other).

(** ServerTimestampTransform is the only implementor of the interface
    TransformOperation, so the [instanceof ServerTimestampTransform] tests
    of the source are matches with one case; their else branches, which
    call [fail], have no inhabitant. *)
Inductive TransformOperation : Type :=
| ServerTimestampTransform.

Definition TransformOperation_isEqual (this other : TransformOperation) : bool :=
  match this with
  | ServerTimestampTransform =>
      match other with
      | ServerTimestampTransform => true
      end
  end.

Record FieldTransform : Type :=
  { field : FieldPath; transform : TransformOperation }.

Definition FieldTransform_isEqual (this other : FieldTransform) : bool :=
  FieldPath_isEqual (field this) (field other)
  && TransformOperation_isEqual (transform this) (transform other).

Record MutationResult : Type :=
  { version : option SnapshotVersion;
    transformResults : option (list FieldValue) }.

Inductive MutationType : Type := Set_ | Patch | Transform | Delete.

(** ** Precondition *)

Record Precondition : Type :=
  { updateTime : option SnapshotVersion; exists_ : option bool }.

Definition Precondition_NONE : Precondition :=
  {| updateTime := None; exists_ := None |}.

Definition Precondition_exists (exists' : bool) : Precondition :=
  {| updateTime := None; exists_ := Some exists' |}.

Definition Precondition_updateTime (version : SnapshotVersion) : Precondition :=
  {| updateTime := Some version; exists_ := None |}.

Definition Precondition_isNone (this : Precondition) : bool :=
  match updateTime this, exists_ this with
  | None, None => true
  | _, _ => false
  end.

(** In the last branch of the source the assertion [this.isNone] cannot
    fail, both fields being undefined there, so the result is a [bool]. *)
Definition Precondition_isValidFor (this : Precondition)
    (maybeDoc : option MaybeDocument) : bool :=
  match updateTime this with
  | Some updateTime =>
      match maybeDoc with
      | Some (Document _ version _ _) => SnapshotVersion_isEqual version updateTime
      | _ => false
      end
  | None =>
      match exists_ this with
      | Some true =>
          match maybeDoc with
          | Some (Document _ _ _ _) => true
          | _ => false
          end
      | Some false =>
          match maybeDoc with
          | None => true
          | Some (NoDocument _ _) => true
          | Some (Document _ _ _ _) => false
          end
      | None => true
      end
  end.

Definition Precondition_isEqual (this other : Precondition) : bool :=
  misc_equals SnapshotVersion_isEqual (updateTime this) (updateTime other)
  && bool_decide (exists_ this = exists_ other).

(** ** Mutation and its four subclasses *)

Inductive Mutation : Type :=
| SetMutation (key : DocumentKey) (value : ObjectValue)
              (precondition : Precondition)
| PatchMutation (key : DocumentKey) (data : ObjectValue)
                (fieldMask : FieldMask) (precondition : Precondition)
| TransformMutation (key : DocumentKey) (fieldTransforms : list FieldTransform)
| DeleteMutation (key : DocumentKey) (precondition : Precondition).

(** The field initialiser [readonly precondition = Precondition.exists(true)]
    of TransformMutation; its constructor takes no precondition. *)
Definition TransformMutation_precondition : Precondition :=
  Precondition_exists true.

Definition Mutation_type (this : Mutation) : MutationType :=
  match this with
  | SetMutation _ _ _ => Set_
  | PatchMutation _ _ _ _ => Patch
  | TransformMutation _ _ => Transform
  | DeleteMutation _ _ => Delete
  end.

Definition Mutation_key (this : Mutation) : DocumentKey :=
  match this with
  | SetMutation key _ _ => key
  | PatchMutation key _ _ _ => key
  | TransformMutation key _ => key
  | DeleteMutation key _ => key
  end.

Definition Mutation_precondition (this : Mutation) : Precondition :=
  match this with
  | SetMutation _ _ precondition => precondition
  | PatchMutation _ _ _ precondition => precondition
  | TransformMutation _ _ => TransformMutation_precondition
  | DeleteMutation _ precondition => precondition
  end.

Definition isNull {A : Type} (x : option A) : bool :=
  match x with
  | None => true
  | Some _ => false
  end.

Definition Mutation_verifyKeyMatches (key : DocumentKey)
    (maybeDoc : option MaybeDocument) : Result unit :=
  match maybeDoc with
  | Some doc =>
      assert (DocumentKey_isEqual (MaybeDocument_key doc) key)
        "Can only apply a mutation to a document with the same key"
  | None => Ok tt
  end.

Definition Mutation_getPostMutationVersion (maybeDoc : option MaybeDocument)
  : SnapshotVersion :=
  match maybeDoc with
  | Some (Document _ version _ _) => version
  | _ => SnapshotVersion_MIN
  end.

(** *** SetMutation *)

Definition SetMutation_applyToRemoteDocument (key : DocumentKey)
    (value : ObjectValue) (precondition : Precondition)
    (maybeDoc : option MaybeDocument) (mutationResult : MutationResult)
  : Result (option MaybeDocument) :=
  Mutation_verifyKeyMatches key maybeDoc ;;
  assert (isNull (transformResults mutationResult))
    "Transform results received by SetMutation." ;;
  let version := Mutation_getPostMutationVersion maybeDoc in
  Ok (Some (Document key version value false)).

Definition SetMutation_applyToLocalView (key : DocumentKey)
    (value : ObjectValue) (precondition : Precondition)
    (maybeDoc baseDoc : option MaybeDocument) (localWriteTime : Timestamp)
  : Result (option MaybeDocument) :=
  Mutation_verifyKeyMatches key maybeDoc ;;
  if negb (Precondition_isValidFor precondition maybeDoc) then Ok maybeDoc
  else
    let version := Mutation_getPostMutationVersion maybeDoc in
    Ok (Some (Document key version value true)).

(** *** PatchMutation *)

Definition PatchMutation_patchObject (this_data : ObjectValue)
    (fieldMask : FieldMask) (data : ObjectValue) : ObjectValue :=
  fold_left
    (fun data fieldPath =>
       match ObjectValue_field this_data fieldPath with
       | Some newValue => ObjectValue_set data fieldPath newValue
       | None => ObjectValue_delete data fieldPath
       end)
    (fields fieldMask) data.

Definition PatchMutation_patchDocument (this_data : ObjectValue)
    (fieldMask : FieldMask) (maybeDoc : option MaybeDocument) : ObjectValue :=
  let data :=
    match maybeDoc with
    | Some (Document _ _ data _) => data
    | _ => ObjectValue_EMPTY
    end in
  PatchMutation_patchObject this_data fieldMask data.

Definition PatchMutation_applyToRemoteDocument (key : DocumentKey)
    (data : ObjectValue) (fieldMask : FieldMask) (precondition : Precondition)
    (maybeDoc : option MaybeDocument) (mutationResult : MutationResult)
  : Result (option MaybeDocument) :=
  Mutation_verifyKeyMatches key maybeDoc ;;
  assert (isNull (transformResults mutationResult))
    "Transform results received by PatchMutation." ;;
  if negb (Precondition_isValidFor precondition maybeDoc) then Ok maybeDoc
  else
    let version := Mutation_getPostMutationVersion maybeDoc in
    let newData := PatchMutation_patchDocument data fieldMask maybeDoc in
    Ok (Some (Document key version newData false)).

Definition PatchMutation_applyToLocalView (key : DocumentKey)
    (data : ObjectValue) (fieldMask : FieldMask) (precondition : Precondition)
    (maybeDoc baseDoc : option MaybeDocument) (localWriteTime : Timestamp)
  : Result (option MaybeDocument) :=
  Mutation_verifyKeyMatches key maybeDoc ;;
  if negb (Precondition_isValidFor precondition maybeDoc) then Ok maybeDoc
  else
    let version := Mutation_getPostMutationVersion maybeDoc in
    let newData := PatchMutation_patchDocument data fieldMask maybeDoc in
    Ok (Some (Document key version newData true)).

(** *** TransformMutation *)

(** [requireDocument] returns the Document it was given; here, the fields
    of that Document: key, version, data and hasLocalMutations.  The message
    of the first assertion is the constant part of the source's, which
    appends the rendering of [maybeDoc] to it. *)
Definition TransformMutation_requireDocument (key : DocumentKey)
    (maybeDoc : option MaybeDocument)
  : Result (DocumentKey * SnapshotVersion * ObjectValue * bool) :=
  match maybeDoc with
  | Some (Document docKey version data hasLocalMutations) =>
      assert (DocumentKey_isEqual docKey key)
        "Can only transform a document with the same key" ;;
      Ok (docKey, version, data, hasLocalMutations)
  | _ => Fatal "Unknown MaybeDocument type"
  end.

Definition TransformMutation_localTransformResults
    (fieldTransforms : list FieldTransform) (localWriteTime : Timestamp)
    (baseDoc : option MaybeDocument) : list FieldValue :=
  map
    (fun fieldTransform =>
       match transform fieldTransform with
       | ServerTimestampTransform =>
           let previousValue :=
             match baseDoc with
             | Some (Document _ _ data _) =>
                 Document_field data (field fieldTransform)
             | _ => None
             end in
           ServerTimestampValue localWriteTime previousValue
       end)
    fieldTransforms.

(** The loop of [transformObject] pairs [fieldTransforms[i]] with
    [transformResults[i]]; the assertion before it makes the two lengths
    equal, so the pairs are those of [zip]. *)
Definition TransformMutation_transformObject
    (fieldTransforms : list FieldTransform) (data : ObjectValue)
    (transformResults : list FieldValue) : Result ObjectValue :=
  assert (Nat.eqb (length transformResults) (length fieldTransforms))
    "TransformResults length mismatch." ;;
  Ok (fold_left
        (fun data '(fieldTransform, transformResult) =>
           match transform fieldTransform with
           | ServerTimestampTransform =>
               ObjectValue_set data (field fieldTransform) transformResult
           end)
        (zip fieldTransforms transformResults) data).

Definition TransformMutation_applyToRemoteDocument (key : DocumentKey)
    (fieldTransforms : list FieldTransform)
    (maybeDoc : option MaybeDocument) (mutationResult : MutationResult)
  : Result (option MaybeDocument) :=
  Mutation_verifyKeyMatches key maybeDoc ;;
  match transformResults mutationResult with
  | None => Fatal "Transform results missing for TransformMutation."
  | Some transformResults =>
      if negb (Precondition_isValidFor TransformMutation_precondition maybeDoc)
      then Ok maybeDoc
      else
        '(_, version, data, _) ← TransformMutation_requireDocument key maybeDoc;
        newData ← TransformMutation_transformObject fieldTransforms data
                    transformResults;
        Ok (Some (Document key version newData false))
  end.

Definition TransformMutation_applyToLocalView (key : DocumentKey)
    (fieldTransforms : list FieldTransform)
    (maybeDoc baseDoc : option MaybeDocument) (localWriteTime : Timestamp)
  : Result (option MaybeDocument) :=
  Mutation_verifyKeyMatches key maybeDoc ;;
  if negb (Precondition_isValidFor TransformMutation_precondition maybeDoc)
  then Ok maybeDoc
  else
    '(_, version, data, _) ← TransformMutation_requireDocument key maybeDoc;
    let transformResults :=
      TransformMutation_localTransformResults fieldTransforms localWriteTime
        baseDoc in
    newData ← TransformMutation_transformObject fieldTransforms data
                transformResults;
    Ok (Some (Document key version newData true)).

(** *** DeleteMutation *)

Definition DeleteMutation_applyToRemoteDocument (key : DocumentKey)
    (precondition : Precondition)
    (maybeDoc : option MaybeDocument) (mutationResult : MutationResult)
  : Result (option MaybeDocument) :=
  Mutation_verifyKeyMatches key maybeDoc ;;
  assert (isNull (transformResults mutationResult))
    "Transform results received by DeleteMutation." ;;
  Ok (Some (NoDocument key SnapshotVersion_MIN)).

Definition DeleteMutation_applyToLocalView (key : DocumentKey)
    (precondition : Precondition)
    (maybeDoc baseDoc : option MaybeDocument) (localWriteTime : Timestamp)
  : Result (option MaybeDocument) :=
  Mutation_verifyKeyMatches key maybeDoc ;;
  if negb (Precondition_isValidFor precondition maybeDoc) then Ok maybeDoc
  else
    match maybeDoc with
    | Some doc =>
        assert (DocumentKey_isEqual (MaybeDocument_key doc) key)
          "Can only apply mutation to document with same key"
    | None => Ok tt
    end ;;
    Ok (Some (NoDocument key SnapshotVersion_forDeletedDoc)).

(** *** The abstract methods of Mutation, by dynamic dispatch *)

Definition Mutation_applyToRemoteDocument (this : Mutation)
    (maybeDoc : option MaybeDocument) (mutationResult : MutationResult)
  : Result (option MaybeDocument) :=
  match this with
  | SetMutation key value precondition =>
      SetMutation_applyToRemoteDocument key value precondition
        maybeDoc mutationResult
  | PatchMutation key data fieldMask precondition =>
      PatchMutation_applyToRemoteDocument key data fieldMask precondition
        maybeDoc mutationResult
  | TransformMutation key fieldTransforms =>
      TransformMutation_applyToRemoteDocument key fieldTransforms
        maybeDoc mutationResult
  | DeleteMutation key precondition =>
      DeleteMutation_applyToRemoteDocument key precondition
        maybeDoc mutationResult
  end.

Definition Mutation_applyToLocalView (this : Mutation)
    (maybeDoc baseDoc : option MaybeDocument) (localWriteTime : Timestamp)
  : Result (option MaybeDocument) :=
  match this with
  | SetMutation key value precondition =>
      SetMutation_applyToLocalView key value precondition
        maybeDoc baseDoc localWriteTime
  | PatchMutation key data fieldMask precondition =>
      PatchMutation_applyToLocalView key data fieldMask precondition
        maybeDoc baseDoc localWriteTime
  | TransformMutation key fieldTransforms =>
      TransformMutation_applyToLocalView key fieldTransforms
        maybeDoc baseDoc localWriteTime
  | DeleteMutation key precondition =>
      DeleteMutation_applyToLocalView key precondition
        maybeDoc baseDoc localWriteTime
  end.

Definition Mutation_isEqual (this other : Mutation) : bool :=
  match this with
  | SetMutation key value precondition =>
      match other with
      | SetMutation key' value' precondition' =>
          DocumentKey_isEqual key key'
          && ObjectValue_isEqual value value'
          && Precondition_isEqual precondition precondition'
      | _ => false
      end
  | PatchMutation key data fieldMask precondition =>
      match other with
      | PatchMutation key' data' fieldMask' precondition' =>
          DocumentKey_isEqual key key'
          && FieldMask_isEqual fieldMask fieldMask'
          && Precondition_isEqual precondition precondition'
      | _ => false
      end
  | TransformMutation key fieldTransforms =>
      match other with
      | TransformMutation key' fieldTransforms' =>
          DocumentKey_isEqual key key'
          && misc_arrayEquals FieldTransform_isEqual
               fieldTransforms fieldTransforms'
          && Precondition_isEqual TransformMutation_precondition
               TransformMutation_precondition
      | _ => false
      end
  | DeleteMutation key precondition =>
      match other with
      | DeleteMutation key' precondition' =>
          DocumentKey_isEqual key key'
          && Precondition_isEqual precondition precondition'
      | _ => false
      end
  end.

(** ** Vocabulary of the statements *)

(** The call contract of both apply methods: a document that is given has
    the key of the mutation. *)
Definition keyMatches (key : DocumentKey) (maybeDoc : option MaybeDocument)
  : Prop :=
  forall doc, maybeDoc = Some doc -> MaybeDocument_key doc = key.

Definition isDocument (maybeDoc : option MaybeDocument) : Prop :=
  exists key version data hasLocalMutations,
    maybeDoc = Some (Document key version data hasLocalMutations).

Definition isNoDocument (maybeDoc : option MaybeDocument) : Prop :=
  exists key version, maybeDoc = Some (NoDocument key version).

(** The data a patch starts from: that of an existing Document, and EMPTY
    for a NoDocument or an absent document. *)
Definition baseData (maybeDoc : option MaybeDocument) : ObjectValue :=
  match maybeDoc with
  | Some (Document _ _ data _) => data
  | _ => ObjectValue_EMPTY
  end.

(** The patch algorithm in the words of the specification, to be compared
    with [PatchMutation_patchObject]: one step per field path of the mask, in
    mask order; a path that has a value in the candidate data [D] is set to
    it on the base object, a path that has none is deleted from it. *)
Definition patchStep (D base : ObjectValue) (p : FieldPath) : ObjectValue :=
  match ObjectValue_field D p with
  | Some v => ObjectValue_set base p v
  | None => ObjectValue_delete base p
  end.

Fixpoint patchReference (M : list FieldPath) (D base : ObjectValue)
  : ObjectValue :=
  match M with
  | [] => base
  | p :: M' => patchReference M' D (patchStep D base p)
  end.

(** The successive [set]s of [transformObject], as a function of the data. *)
Definition setAll (assignments : list (FieldTransform * FieldValue))
    (data : ObjectValue) : ObjectValue :=
  fold_left
    (fun data '(fieldTransform, transformResult) =>
       match transform fieldTransform with
       | ServerTimestampTransform =>
           ObjectValue_set data (field fieldTransform) transformResult
       end)
    assignments data.

(** Sample values: the documents and mutations of the worked examples. *)
Definition sampleKey : DocumentKey := {| path := ["rooms"; "eros"] |}.
Definition otherKey : DocumentKey := {| path := ["rooms"; "other"] |}.
Definition sampleTime : Timestamp := {| seconds := 1; nanoseconds := 0 |}.
Definition a1b2 : ObjectValue :=
  <[ ["a"] := IntegerValue 1 ]> (<[ ["b"] := IntegerValue 2 ]> ∅).
Definition a9 : ObjectValue := <[ ["a"] := IntegerValue 9 ]> ∅.
Definition a9b2 : ObjectValue :=
  <[ ["a"] := IntegerValue 9 ]> (<[ ["b"] := IntegerValue 2 ]> ∅).
Definition b2 : ObjectValue := <[ ["b"] := IntegerValue 2 ]> ∅.
Definition maskA : FieldMask := {| fields := [["a"]] |}.
Definition stampA : FieldTransform :=
  {| field := ["a"]; transform := ServerTimestampTransform |}.

(** The previous value that a local server-timestamp placeholder records
    for a field: the value the base document has there when it is a
    Document, and none otherwise. *)
Definition previousValueOf (baseDoc : option MaybeDocument) (path : FieldPath)
  : option FieldValue :=
  match baseDoc with
  | Some (Document _ _ data _) => Document_field data path
  | _ => None
  end.

(** A mutation with the data of a PatchMutation blanked. *)
Definition withoutPatchData (m : Mutation) : Mutation :=
  match m with
  | PatchMutation key _ fieldMask precondition =>
      PatchMutation key ObjectValue_EMPTY fieldMask precondition
  | _ => m
  end.

(** The local view after two mutations in a row, the second applied to the
    result of the first, with the same base document and write time. *)
Definition applyLocallyInSequence (first second : Mutation)
    (maybeDoc baseDoc : option MaybeDocument) (localWriteTime : Timestamp)
  : Result (option MaybeDocument) :=
  Mutation_applyToLocalView first maybeDoc baseDoc localWriteTime
    ≫= fun afterFirst =>
         Mutation_applyToLocalView second afterFirst baseDoc localWriteTime.

(** ** Messaging: the validity test of a stored token
    (packages/messaging/src/internals/token-manager.ts) *)

(** SubscriptionOptions (interfaces/token-details.ts is not among the
    sources), with the fields that [getTokenInternal] fills in. *)
Record SubscriptionOptions : Type :=
  { vapidKey : string;
    swScope : string;
    endpoint : string;
    auth : string;
    p256dh : string }.

Definition isTokenValid (dbOptions currentOptions : SubscriptionOptions) : bool :=
  let isVapidKeyEqual :=
    bool_decide (vapidKey currentOptions = vapidKey dbOptions) in
  let isEndpointEqual :=
    bool_decide (endpoint currentOptions = endpoint dbOptions) in
  let isAuthEqual := bool_decide (auth currentOptions = auth dbOptions) in
  let isP256dhEqual := bool_decide (p256dh currentOptions = p256dh dbOptions) in
  isVapidKeyEqual && isEndpointEqual && isAuthEqual && isP256dhEqual.

Definition sampleOptions : SubscriptionOptions :=
  {| vapidKey := "vapid"; swScope := "/scope"; endpoint := "https://push";
     auth := "auth"; p256dh := "p256dh" |}.
Definition sampleTransforms : list FieldTransform :=
  [ stampA; {| field := ["b"]; transform := ServerTimestampTransform |} ].

(** Case analysis on the precondition test that the goal runs. *)
Ltac case_isValidFor :=
  match goal with
  | |- context [Precondition_isValidFor ?pre ?doc] =>
      destruct (Precondition_isValidFor pre doc)
  end.

(** ** Assertions and key verification *)

Lemma DocumentKey_isEqual_true (a b : DocumentKey) :
  DocumentKey_isEqual a b = true <-> a = b.
Proof. unfold DocumentKey_isEqual. apply bool_decide_eq_true. Qed.

Lemma DocumentKey_isEqual_refl (a : DocumentKey) : DocumentKey_isEqual a a = true.
Proof. now apply DocumentKey_isEqual_true. Qed.

Lemma SnapshotVersion_isEqual_true (a b : SnapshotVersion) :
  SnapshotVersion_isEqual a b = true <-> a = b.
Proof. unfold SnapshotVersion_isEqual. apply bool_decide_eq_true. Qed.

Lemma verifyKeyMatches_ok (key : DocumentKey) (maybeDoc : option MaybeDocument) :
  keyMatches key maybeDoc -> Mutation_verifyKeyMatches key maybeDoc = Ok tt.
Proof.
  intros Hkey. destruct maybeDoc as [doc|]; simpl; [|reflexivity].
  rewrite (Hkey doc eq_refl), DocumentKey_isEqual_refl. reflexivity.
Qed.


Lemma keyMatches_None (key : DocumentKey) : keyMatches key None.
Proof. intros doc H. discriminate H. Qed.

Lemma keyMatches_Some (doc : MaybeDocument) :
  keyMatches (MaybeDocument_key doc) (Some doc).
Proof. intros doc' H. injection H as <-. reflexivity. Qed.

Lemma keyMatches_NoDocument (key : DocumentKey) (version : SnapshotVersion) :
  keyMatches key (Some (NoDocument key version)).
Proof. exact (keyMatches_Some (NoDocument key version)). Qed.

Lemma keyMatches_Document (key : DocumentKey) (version : SnapshotVersion)
    (data : ObjectValue) (hasLocalMutations : bool) :
  keyMatches key (Some (Document key version data hasLocalMutations)).
Proof. exact (keyMatches_Some (Document key version data hasLocalMutations)). Qed.

(** ** Precondition.isValidFor *)

Lemma isValidFor_updateTime (v : SnapshotVersion) (maybeDoc : option MaybeDocument) :
  Precondition_isValidFor (Precondition_updateTime v) maybeDoc = true
  <-> exists key data hasLocalMutations,
        maybeDoc = Some (Document key v data hasLocalMutations).
Proof.
  simpl. destruct maybeDoc as [[key version data h | key version]|]; split.
  - intros H. apply SnapshotVersion_isEqual_true in H. subst. eauto.
  - intros (key' & data' & h' & H). injection H as -> -> -> ->.
    now apply SnapshotVersion_isEqual_true.
  - discriminate.
  - intros (? & ? & ? & H). discriminate H.
  - discriminate.
  - intros (? & ? & ? & H). discriminate H.
Qed.

Lemma isValidFor_exists_true (maybeDoc : option MaybeDocument) :
  Precondition_isValidFor (Precondition_exists true) maybeDoc = true
  <-> isDocument maybeDoc.
Proof.
  unfold isDocument. simpl.
  destruct maybeDoc as [[key version data h | key version]|]; split;
    try discriminate; eauto.
  - intros (? & ? & ? & ? & H). discriminate H.
  - intros (? & ? & ? & ? & H). discriminate H.
Qed.

Lemma isValidFor_exists_false (maybeDoc : option MaybeDocument) :
  Precondition_isValidFor (Precondition_exists false) maybeDoc = true
  <-> maybeDoc = None \/ isNoDocument maybeDoc.
Proof.
  unfold isNoDocument. simpl.
  destruct maybeDoc as [[key version data h | key version]|]; split;
    try discriminate; eauto.
  intros [H | (? & ? & H)]; discriminate H.
Qed.

(** C9. Precondition.isValidFor, variant by variant: an update time [v] is
    valid exactly for a Document whose version is [v]; exists(true) exactly
    for a Document; exists(false) exactly for an absent document or a
    NoDocument; the empty precondition is valid for every input. *)
Theorem Precondition_isValidFor_by_variant (maybeDoc : option MaybeDocument) :
  (forall v,
      Precondition_isValidFor (Precondition_updateTime v) maybeDoc = true
      <-> exists key data hasLocalMutations,
            maybeDoc = Some (Document key v data hasLocalMutations))
  /\ (Precondition_isValidFor (Precondition_exists true) maybeDoc = true
      <-> isDocument maybeDoc)
  /\ (Precondition_isValidFor (Precondition_exists false) maybeDoc = true
      <-> maybeDoc = None \/ isNoDocument maybeDoc)
  /\ Precondition_isValidFor Precondition_NONE maybeDoc = true.
Proof.
  split; [intros v; apply isValidFor_updateTime|].
  split; [apply isValidFor_exists_true|].
  split; [apply isValidFor_exists_false|reflexivity].
Qed.

(** ** SetMutation *)

(** C1. Applied to a remote document with the mutation's key, and with no
    transform results in the acknowledgement, a SetMutation returns
    Document(key, v, value, hasLocalMutations = false) whatever its
    precondition, where v is the version of the input when that is a
    Document and MIN otherwise; on NoDocument(v = 3) the result has version
    MIN. *)
Theorem SetMutation_applyToRemoteDocument_spec
    (key : DocumentKey) (value : ObjectValue) (precondition : Precondition)
    (maybeDoc : option MaybeDocument) (ack : option SnapshotVersion) :
  keyMatches key maybeDoc ->
  SetMutation_applyToRemoteDocument key value precondition maybeDoc
    {| version := ack; transformResults := None |}
  = Ok (Some (Document key
                (match maybeDoc with
                 | Some (Document _ v _ _) => v
                 | _ => SnapshotVersion_MIN
                 end)
                value false))
  /\ SetMutation_applyToRemoteDocument key value precondition
       (Some (NoDocument key (SnapshotVersion_at 3)))
       {| version := ack; transformResults := None |}
     = Ok (Some (Document key SnapshotVersion_MIN value false)).
Proof.
  intros Hkey. unfold SetMutation_applyToRemoteDocument. split.
  - rewrite (verifyKeyMatches_ok _ _ Hkey). reflexivity.
  - rewrite (verifyKeyMatches_ok _ _ (keyMatches_NoDocument key _)).
    reflexivity.
Qed.


Lemma SetMutation_applyToRemoteDocument_witness :
  SetMutation_applyToRemoteDocument sampleKey a9 (Precondition_exists false)
    (Some (Document sampleKey (SnapshotVersion_at 7) a1b2 true))
    {| version := Some (SnapshotVersion_at 8); transformResults := None |}
  = Ok (Some (Document sampleKey (SnapshotVersion_at 7) a9 false))
  /\ SetMutation_applyToRemoteDocument sampleKey a9 (Precondition_exists false)
       (Some (NoDocument sampleKey (SnapshotVersion_at 3)))
       {| version := Some (SnapshotVersion_at 8); transformResults := None |}
     = Ok (Some (Document sampleKey SnapshotVersion_MIN a9 false)).
Proof.
  apply (SetMutation_applyToRemoteDocument_spec sampleKey a9
           (Precondition_exists false)
           (Some (Document sampleKey (SnapshotVersion_at 7) a1b2 true))
           (Some (SnapshotVersion_at 8))).
  intros doc H. injection H as <-. reflexivity.
Defined.

(** ** DeleteMutation *)

Lemma forDeletedDoc_not_MIN : SnapshotVersion_forDeletedDoc <> SnapshotVersion_MIN.
Proof. discriminate. Qed.

(** C3, as stated, fails: a DeleteMutation whose precondition is
    exists(true), applied locally to an absent document, returns the absent
    document and not a NoDocument. *)
Lemma DeleteMutation_applyToLocalView_guarded :
  DeleteMutation_applyToLocalView sampleKey (Precondition_exists true)
    None None sampleTime
  = Ok None
  /\ ~ (forall key precondition maybeDoc baseDoc localWriteTime,
          keyMatches key maybeDoc ->
          DeleteMutation_applyToLocalView key precondition maybeDoc baseDoc
            localWriteTime
          = Ok (Some (NoDocument key SnapshotVersion_forDeletedDoc))).
Proof.
  split; [reflexivity|].
  intros H.
  specialize (H sampleKey (Precondition_exists true) None None sampleTime
                (keyMatches_None sampleKey)).
  discriminate H.
Qed.

(** C3, amended. For a prior state with the mutation's key and an
    acknowledgement without transform results, applyToRemoteDocument returns
    NoDocument(key, MIN) whatever the precondition; applyToLocalView returns
    NoDocument(key, deleted-sentinel) when the precondition is valid for the
    prior state (so for every prior state under the empty precondition) and
    the prior state unchanged when it is not; the deleted sentinel differs
    from MIN. *)
Theorem DeleteMutation_apply_spec
    (key : DocumentKey) (precondition : Precondition)
    (maybeDoc baseDoc : option MaybeDocument) (ack : option SnapshotVersion)
    (localWriteTime : Timestamp) :
  keyMatches key maybeDoc ->
  DeleteMutation_applyToRemoteDocument key precondition maybeDoc
    {| version := ack; transformResults := None |}
  = Ok (Some (NoDocument key SnapshotVersion_MIN))
  /\ DeleteMutation_applyToLocalView key precondition maybeDoc baseDoc
       localWriteTime
     = (if Precondition_isValidFor precondition maybeDoc
        then Ok (Some (NoDocument key SnapshotVersion_forDeletedDoc))
        else Ok maybeDoc)
  /\ DeleteMutation_applyToLocalView key Precondition_NONE maybeDoc baseDoc
       localWriteTime
     = Ok (Some (NoDocument key SnapshotVersion_forDeletedDoc))
  /\ SnapshotVersion_forDeletedDoc <> SnapshotVersion_MIN.
Proof.
  intros Hkey.
  assert (Hlocal : forall pre,
    DeleteMutation_applyToLocalView key pre maybeDoc baseDoc localWriteTime
    = (if Precondition_isValidFor pre maybeDoc
       then Ok (Some (NoDocument key SnapshotVersion_forDeletedDoc))
       else Ok maybeDoc)).
  { intros pre. unfold DeleteMutation_applyToLocalView.
    rewrite (verifyKeyMatches_ok _ _ Hkey). simpl.
    destruct (Precondition_isValidFor pre maybeDoc); simpl; [|reflexivity].
    destruct maybeDoc as [doc|]; [|reflexivity].
    rewrite (Hkey doc eq_refl), DocumentKey_isEqual_refl. reflexivity. }
  split; [|split; [apply Hlocal|split; [apply Hlocal|apply forDeletedDoc_not_MIN]]].
  unfold DeleteMutation_applyToRemoteDocument.
  rewrite (verifyKeyMatches_ok _ _ Hkey). reflexivity.
Qed.

Lemma DeleteMutation_apply_witness :
  DeleteMutation_applyToRemoteDocument sampleKey (Precondition_exists true)
    (Some (NoDocument sampleKey (SnapshotVersion_at 3)))
    {| version := None; transformResults := None |}
  = Ok (Some (NoDocument sampleKey SnapshotVersion_MIN))
  /\ DeleteMutation_applyToLocalView sampleKey (Precondition_exists true)
       (Some (NoDocument sampleKey (SnapshotVersion_at 3))) None sampleTime
     = Ok (Some (NoDocument sampleKey (SnapshotVersion_at 3)))
  /\ DeleteMutation_applyToLocalView sampleKey Precondition_NONE
       (Some (NoDocument sampleKey (SnapshotVersion_at 3))) None sampleTime
     = Ok (Some (NoDocument sampleKey SnapshotVersion_forDeletedDoc))
  /\ SnapshotVersion_forDeletedDoc <> SnapshotVersion_MIN.
Proof.
  apply (DeleteMutation_apply_spec sampleKey (Precondition_exists true)
           (Some (NoDocument sampleKey (SnapshotVersion_at 3))) None None
           sampleTime).
  intros doc H. injection H as <-. reflexivity.
Defined.

(** ** TransformMutation: the local view of a missing document *)

(** C4. The precondition of every TransformMutation is exists(true): the
    constructor takes only a key and the field transforms.  Applied locally
    to an absent document or to a NoDocument with its key, it returns the
    input unchanged; a Document is returned only for an input that is a
    Document. *)
Theorem TransformMutation_never_creates
    (key : DocumentKey) (fieldTransforms : list FieldTransform)
    (baseDoc : option MaybeDocument) (localWriteTime : Timestamp) :
  Mutation_precondition (TransformMutation key fieldTransforms)
  = Precondition_exists true
  /\ TransformMutation_applyToLocalView key fieldTransforms None baseDoc
       localWriteTime
     = Ok None
  /\ (forall version,
        TransformMutation_applyToLocalView key fieldTransforms
          (Some (NoDocument key version)) baseDoc localWriteTime
        = Ok (Some (NoDocument key version)))
  /\ (forall maybeDoc result,
        TransformMutation_applyToLocalView key fieldTransforms maybeDoc
          baseDoc localWriteTime = Ok result ->
        isDocument result -> isDocument maybeDoc).
Proof.
  split; [reflexivity|split; [reflexivity|split]].
  - intros version. unfold TransformMutation_applyToLocalView.
    rewrite (verifyKeyMatches_ok _ _ (keyMatches_NoDocument key version)).
    reflexivity.
  - intros maybeDoc result Happly Hres.
    destruct maybeDoc as [[k v d h | k v]|].
    + unfold isDocument. eauto.
    + exfalso. unfold TransformMutation_applyToLocalView in Happly.
      simpl in Happly. unfold assert in Happly.
      destruct (DocumentKey_isEqual k key); simpl in Happly; [|discriminate].
      injection Happly as <-. destruct Hres as (? & ? & ? & ? & H). discriminate H.
    + exfalso. simpl in Happly. injection Happly as <-.
      destruct Hres as (? & ? & ? & ? & H). discriminate H.
Qed.

(** ** PatchMutation: the precondition guard *)

(** C6. When the precondition of a PatchMutation is not valid for the
    input, both apply methods return the input unchanged (the input has the
    mutation's key and the acknowledgement carries no transform results);
    a SetMutation with the same precondition still writes on the remote
    path. *)
Theorem PatchMutation_precondition_rechecked
    (key : DocumentKey) (data : ObjectValue) (fieldMask : FieldMask)
    (precondition : Precondition) (maybeDoc baseDoc : option MaybeDocument)
    (ack : option SnapshotVersion) (localWriteTime : Timestamp) :
  keyMatches key maybeDoc ->
  Precondition_isValidFor precondition maybeDoc = false ->
  PatchMutation_applyToRemoteDocument key data fieldMask precondition maybeDoc
    {| version := ack; transformResults := None |}
  = Ok maybeDoc
  /\ PatchMutation_applyToLocalView key data fieldMask precondition maybeDoc
       baseDoc localWriteTime
     = Ok maybeDoc
  /\ SetMutation_applyToRemoteDocument key data precondition maybeDoc
       {| version := ack; transformResults := None |}
     = Ok (Some (Document key (Mutation_getPostMutationVersion maybeDoc)
                   data false)).
Proof.
  intros Hkey Hinvalid.
  unfold PatchMutation_applyToRemoteDocument, PatchMutation_applyToLocalView,
    SetMutation_applyToRemoteDocument.
  rewrite (verifyKeyMatches_ok _ _ Hkey), Hinvalid. simpl. auto.
Qed.

Lemma PatchMutation_precondition_rechecked_witness :
  PatchMutation_applyToRemoteDocument sampleKey a9 maskA
    (Precondition_exists true)
    (Some (NoDocument sampleKey (SnapshotVersion_at 3)))
    {| version := Some (SnapshotVersion_at 4); transformResults := None |}
  = Ok (Some (NoDocument sampleKey (SnapshotVersion_at 3)))
  /\ PatchMutation_applyToLocalView sampleKey a9 maskA
       (Precondition_exists true)
       (Some (NoDocument sampleKey (SnapshotVersion_at 3))) None sampleTime
     = Ok (Some (NoDocument sampleKey (SnapshotVersion_at 3)))
  /\ SetMutation_applyToRemoteDocument sampleKey a9 (Precondition_exists true)
       (Some (NoDocument sampleKey (SnapshotVersion_at 3)))
       {| version := Some (SnapshotVersion_at 4); transformResults := None |}
     = Ok (Some (Document sampleKey
                   (Mutation_getPostMutationVersion
                      (Some (NoDocument sampleKey (SnapshotVersion_at 3))))
                   a9 false)).
Proof.
  apply (PatchMutation_precondition_rechecked sampleKey a9 maskA
           (Precondition_exists true)
           (Some (NoDocument sampleKey (SnapshotVersion_at 3))) None
           (Some (SnapshotVersion_at 4)) sampleTime).
  - intros doc H. injection H as <-. reflexivity.
  - reflexivity.
Defined.

(** ** TransformMutation: the remote path *)

Lemma transformObject_unfold (fieldTransforms : list FieldTransform)
    (data : ObjectValue) (transformResults : list FieldValue) :
  TransformMutation_transformObject fieldTransforms data transformResults
  = (if Nat.eqb (length transformResults) (length fieldTransforms)
     then Ok (setAll (zip fieldTransforms transformResults) data)
     else Fatal "TransformResults length mismatch.").
Proof.
  unfold TransformMutation_transformObject, assert, setAll.
  destruct (Nat.eqb _ _); reflexivity.
Qed.

(** C7, as stated, fails: with one field transform and an empty, hence
    shorter, list of transform results, the remote application to an absent
    document returns the absent document; no assertion fails. *)
Lemma TransformMutation_remote_length_unchecked :
  TransformMutation_applyToRemoteDocument sampleKey [stampA] None
    {| version := Some (SnapshotVersion_at 4); transformResults := Some [] |}
  = Ok None
  /\ length (@nil FieldValue) <> length [stampA]
  /\ ~ isFatal
         (TransformMutation_applyToRemoteDocument sampleKey [stampA] None
            {| version := Some (SnapshotVersion_at 4);
               transformResults := Some [] |}).
Proof.
  split; [reflexivity|]. split; [discriminate|]. intros H. exact H.
Qed.

(** C7, amended. The remote application of a TransformMutation aborts
    whenever the transform results are absent.  When they are present and
    the precondition is not valid for the input (which has the mutation's
    key), it returns the input unchanged, of whatever length the results
    are.  When they are present and the input is a Document with the
    mutation's key, it aborts if their length differs from that of the field
    transforms, and otherwise returns the Document with the results set,
    the same version and hasLocalMutations = false. *)
Theorem TransformMutation_applyToRemoteDocument_spec
    (key : DocumentKey) (fieldTransforms : list FieldTransform)
    (maybeDoc : option MaybeDocument) (ack : option SnapshotVersion) :
  isFatal (TransformMutation_applyToRemoteDocument key fieldTransforms maybeDoc
             {| version := ack; transformResults := None |})
  /\ (forall results,
        keyMatches key maybeDoc ->
        Precondition_isValidFor TransformMutation_precondition maybeDoc = false ->
        TransformMutation_applyToRemoteDocument key fieldTransforms maybeDoc
          {| version := ack; transformResults := Some results |}
        = Ok maybeDoc)
  /\ (forall results v data h,
        maybeDoc = Some (Document key v data h) ->
        length results <> length fieldTransforms ->
        isFatal (TransformMutation_applyToRemoteDocument key fieldTransforms
                   maybeDoc
                   {| version := ack; transformResults := Some results |}))
  /\ (forall results v data h,
        maybeDoc = Some (Document key v data h) ->
        length results = length fieldTransforms ->
        TransformMutation_applyToRemoteDocument key fieldTransforms maybeDoc
          {| version := ack; transformResults := Some results |}
        = Ok (Some (Document key v
                      (setAll (zip fieldTransforms results) data) false))).
Proof.
  unfold TransformMutation_applyToRemoteDocument.
  split; [|split; [|split]].
  - simpl. destruct (Mutation_verifyKeyMatches key maybeDoc); exact I.
  - intros results Hkey Hinvalid.
    rewrite (verifyKeyMatches_ok _ _ Hkey). simpl.
    simpl in Hinvalid. rewrite Hinvalid. reflexivity.
  - intros results v data h -> Hlen.
    rewrite (verifyKeyMatches_ok _ _ (keyMatches_Document key v data h)).
    simpl. rewrite DocumentKey_isEqual_refl. simpl.
    rewrite transformObject_unfold.
    destruct (Nat.eqb_spec (length results) (length fieldTransforms));
      [contradiction|exact I].
  - intros results v data h -> Hlen.
    rewrite (verifyKeyMatches_ok _ _ (keyMatches_Document key v data h)).
    simpl. rewrite DocumentKey_isEqual_refl. simpl.
    rewrite transformObject_unfold, Hlen, Nat.eqb_refl. reflexivity.
Qed.

(** ** The acknowledged version is not read *)

(** C10. For every mutation, two acknowledgements that differ only in their
    version give the same remote result; the version of a returned document
    is MIN or the version of the input document. *)
Theorem applyToRemoteDocument_ignores_ack_version
    (this : Mutation) (maybeDoc : option MaybeDocument)
    (ack1 ack2 : option SnapshotVersion) (results : option (list FieldValue)) :
  Mutation_applyToRemoteDocument this maybeDoc
    {| version := ack1; transformResults := results |}
  = Mutation_applyToRemoteDocument this maybeDoc
      {| version := ack2; transformResults := results |}
  /\ (forall doc,
        Mutation_applyToRemoteDocument this maybeDoc
          {| version := ack1; transformResults := results |}
        = Ok (Some doc) ->
        MaybeDocument_version doc = SnapshotVersion_MIN
        \/ exists prior,
             maybeDoc = Some prior
             /\ MaybeDocument_version doc = MaybeDocument_version prior).
Proof.
  split; [destruct this; reflexivity|].
  intros doc Happly.
  destruct (Mutation_verifyKeyMatches (Mutation_key this) maybeDoc) as [[]|msg] eqn:Hverify;
    [|destruct this; simpl in Hverify, Happly;
      unfold SetMutation_applyToRemoteDocument,
        PatchMutation_applyToRemoteDocument,
        TransformMutation_applyToRemoteDocument,
        DeleteMutation_applyToRemoteDocument in Happly;
      rewrite Hverify in Happly; discriminate Happly].
  destruct this as [key value pre | key data mask pre | key fts | key pre];
    simpl in Hverify, Happly.
  - unfold SetMutation_applyToRemoteDocument in Happly.
    rewrite Hverify in Happly. simpl in Happly.
    destruct results; simpl in Happly; [discriminate|].
    simplify_eq.
    destruct maybeDoc as [[k v d h | k v]|]; simpl; eauto.
  - unfold PatchMutation_applyToRemoteDocument in Happly.
    rewrite Hverify in Happly. simpl in Happly.
    destruct results; simpl in Happly; [discriminate|].
    destruct (Precondition_isValidFor pre maybeDoc); simpl in Happly;
      simplify_eq.
    + destruct maybeDoc as [[k v d h | k v]|]; simpl; eauto.
    + right. eauto.
  - unfold TransformMutation_applyToRemoteDocument in Happly.
    rewrite Hverify in Happly. simpl in Happly.
    destruct results as [rs|]; [|discriminate].
    destruct maybeDoc as [[k v d h | k v]|]; simpl in Happly.
    + unfold assert in Happly.
      destruct (DocumentKey_isEqual k key); simpl in Happly; [|discriminate].
      destruct (TransformMutation_transformObject fts d rs);
        simpl in Happly; [|discriminate].
      simplify_eq. right. eauto.
    + simplify_eq. right. eauto.
    + discriminate.
  - unfold DeleteMutation_applyToRemoteDocument in Happly.
    rewrite Hverify in Happly. simpl in Happly.
    destruct results; simpl in Happly; [discriminate|].
    simplify_eq. left. reflexivity.
Qed.

(** ** Equality *)

Lemma misc_arrayEquals_true {A : Type} (isEqual : A -> A -> bool) :
  (forall a b, isEqual a b = true <-> a = b) ->
  forall left right, misc_arrayEquals isEqual left right = true <-> left = right.
Proof.
  intros Helem. induction left as [|l left IH]; intros [|r right]; simpl;
    try (split; [discriminate|discriminate]); [tauto|].
  rewrite andb_true_iff, Helem, IH. split.
  - intros [-> ->]. reflexivity.
  - intros H. injection H as -> ->. auto.
Qed.

Lemma misc_equals_true {A : Type} (isEqual : A -> A -> bool) :
  (forall a b, isEqual a b = true <-> a = b) ->
  forall left right, misc_equals isEqual left right = true <-> left = right.
Proof.
  intros Helem [l|] [r|]; simpl; try (split; discriminate); [|tauto].
  rewrite Helem. split; [intros ->; reflexivity|intros H; injection H; auto].
Qed.

Lemma FieldPath_isEqual_true (a b : FieldPath) :
  FieldPath_isEqual a b = true <-> a = b.
Proof. unfold FieldPath_isEqual. apply bool_decide_eq_true. Qed.

Lemma ObjectValue_isEqual_true (a b : ObjectValue) :
  ObjectValue_isEqual a b = true <-> a = b.
Proof. unfold ObjectValue_isEqual. apply bool_decide_eq_true. Qed.

Lemma FieldMask_isEqual_true (a b : FieldMask) :
  FieldMask_isEqual a b = true <-> a = b.
Proof.
  unfold FieldMask_isEqual.
  rewrite (misc_arrayEquals_true _ FieldPath_isEqual_true).
  destruct a, b; simpl. split; [intros ->; reflexivity|intros H; injection H; auto].
Qed.

Lemma FieldTransform_isEqual_true (a b : FieldTransform) :
  FieldTransform_isEqual a b = true <-> a = b.
Proof.
  unfold FieldTransform_isEqual.
  rewrite andb_true_iff, FieldPath_isEqual_true.
  destruct a as [fa []], b as [fb []]; simpl. split.
  - intros [-> _]. reflexivity.
  - intros H. injection H as ->. auto.
Qed.

Lemma Precondition_isEqual_true (a b : Precondition) :
  Precondition_isEqual a b = true <-> a = b.
Proof.
  unfold Precondition_isEqual.
  rewrite andb_true_iff, (misc_equals_true _ SnapshotVersion_isEqual_true),
    bool_decide_eq_true.
  destruct a, b; simpl. split.
  - intros [-> ->]. reflexivity.
  - intros H. injection H as -> ->. auto.
Qed.

(** C5. isEqual compares the key, the precondition and the variant's own
    fields for SetMutation, TransformMutation and DeleteMutation, mutations
    of different variants are never equal, and a precondition with an
    exists flag never equals one with an update time.  PatchMutation.isEqual
    compares the key, the field mask and the precondition but not the data:
    two patches that differ in their data alone are reported equal. *)
Theorem Mutation_isEqual_spec :
  (forall key value pre key' value' pre',
      Mutation_isEqual (SetMutation key value pre) (SetMutation key' value' pre')
      = true
      <-> key = key' /\ value = value' /\ pre = pre')
  /\ (forall key fts key' fts',
        Mutation_isEqual (TransformMutation key fts) (TransformMutation key' fts')
        = true
        <-> key = key' /\ fts = fts')
  /\ (forall key pre key' pre',
        Mutation_isEqual (DeleteMutation key pre) (DeleteMutation key' pre')
        = true
        <-> key = key' /\ pre = pre')
  /\ (forall this other,
        Mutation_type this <> Mutation_type other ->
        Mutation_isEqual this other = false)
  /\ (forall flag version,
        Precondition_isEqual (Precondition_exists flag)
          (Precondition_updateTime version) = false
        /\ Precondition_isEqual (Precondition_updateTime version)
             (Precondition_exists flag) = false)
  /\ (forall key data mask pre key' data' mask' pre',
        Mutation_isEqual (PatchMutation key data mask pre)
          (PatchMutation key' data' mask' pre')
        = true
        <-> key = key' /\ mask = mask' /\ pre = pre')
  /\ Mutation_isEqual (PatchMutation sampleKey a1b2 maskA Precondition_NONE)
       (PatchMutation sampleKey a9 maskA Precondition_NONE)
     = true
  /\ a1b2 <> a9.
Proof.
  repeat split; try (intros; simpl in *;
    repeat rewrite andb_true_iff in *;
    rewrite ?DocumentKey_isEqual_true, ?ObjectValue_isEqual_true,
      ?Precondition_isEqual_true, ?FieldMask_isEqual_true,
      ?(misc_arrayEquals_true _ FieldTransform_isEqual_true) in *;
    intuition congruence).
  - intros this other Hne. destruct this, other; simpl in *; congruence.
  - intros H. apply (f_equal (fun m : ObjectValue => m !! ["a"])) in H.
    vm_compute in H. discriminate H.
Qed.

(** ** PatchMutation: the patch algorithm *)

Lemma patchObject_reference (D : ObjectValue) (M : FieldMask) (base : ObjectValue) :
  PatchMutation_patchObject D M base = patchReference (fields M) D base.
Proof.
  unfold PatchMutation_patchObject. destruct M as [paths]. simpl.
  revert base. induction paths as [|p paths IH]; intros base; simpl.
  - reflexivity.
  - rewrite IH. reflexivity.
Qed.

Lemma patchStep_lookup (D base : ObjectValue) (p q : FieldPath) :
  patchStep D base p !! q = if decide (q = p) then D !! q else base !! q.
Proof.
  unfold patchStep, ObjectValue_field, ObjectValue_set, ObjectValue_delete.
  destruct (decide (q = p)) as [->|Hne].
  - destruct (D !! p) as [v|] eqn:HD.
    + apply lookup_insert_eq.
    + apply lookup_delete_eq.
  - destruct (D !! p) as [v|].
    + apply lookup_insert_ne. congruence.
    + apply lookup_delete_ne. congruence.
Qed.

(** The patched object, path by path: a path of the mask has the value the
    candidate data gives it, or none; every other path keeps what the base
    object has. *)
Lemma patchReference_lookup (M : list FieldPath) (D base : ObjectValue)
    (q : FieldPath) :
  patchReference M D base !! q = if decide (q ∈ M) then D !! q else base !! q.
Proof.
  revert base. induction M as [|p M IH]; intros base; simpl.
  - destruct (decide (q ∈ [])) as [Hin|_]; [|reflexivity].
    apply elem_of_nil in Hin. contradiction.
  - rewrite IH, patchStep_lookup.
    destruct (decide (q ∈ M)) as [Hin|Hnin].
    + rewrite decide_True; [reflexivity|]. apply elem_of_cons. auto.
    + destruct (decide (q = p)) as [->|Hne].
      * rewrite decide_True; [reflexivity|]. apply elem_of_cons. auto.
      * rewrite decide_False; [reflexivity|].
        rewrite elem_of_cons. tauto.
Qed.

Lemma patchReference_idempotent (M : list FieldPath) (D base : ObjectValue) :
  patchReference M D (patchReference M D base) = patchReference M D base.
Proof.
  apply map_eq. intros q. rewrite !patchReference_lookup.
  destruct (decide (q ∈ M)); reflexivity.
Qed.

Lemma patchDocument_reference (D : ObjectValue) (M : FieldMask)
    (maybeDoc : option MaybeDocument) :
  PatchMutation_patchDocument D M maybeDoc
  = patchReference (fields M) D (baseData maybeDoc).
Proof.
  unfold PatchMutation_patchDocument. rewrite patchObject_reference.
  destruct maybeDoc as [[k v d h | k v]|]; reflexivity.
Qed.

(** C2. The data a PatchMutation produces is that of the reference
    computation: from the data of an existing Document, or from EMPTY, one
    step per path of the mask in mask order, setting the path when the
    candidate data has a value for it and deleting it otherwise.  A path of
    the mask ends with the candidate's value or with none, a path outside
    the mask keeps its base value, and candidate data that agree on the
    paths of the mask give the same result.  When the precondition holds,
    this is the data of the Document that both apply methods return.  Base
    {a: 1, b: 2} with mask [a] gives {a: 9, b: 2} for the data {a: 9} and
    {b: 2} for the empty data. *)
Theorem PatchMutation_patch_reference
    (key : DocumentKey) (D : ObjectValue) (M : FieldMask)
    (precondition : Precondition) (maybeDoc : option MaybeDocument) :
  PatchMutation_patchDocument D M maybeDoc
  = patchReference (fields M) D (baseData maybeDoc)
  /\ (forall p, p ∈ fields M ->
        ObjectValue_field (PatchMutation_patchDocument D M maybeDoc) p
        = ObjectValue_field D p)
  /\ (forall q, q ∉ fields M ->
        ObjectValue_field (PatchMutation_patchDocument D M maybeDoc) q
        = ObjectValue_field (baseData maybeDoc) q)
  /\ (forall D',
        (forall p, p ∈ fields M -> ObjectValue_field D' p = ObjectValue_field D p) ->
        PatchMutation_patchDocument D' M maybeDoc
        = PatchMutation_patchDocument D M maybeDoc)
  /\ (forall baseDoc localWriteTime ack,
        keyMatches key maybeDoc ->
        Precondition_isValidFor precondition maybeDoc = true ->
        PatchMutation_applyToLocalView key D M precondition maybeDoc baseDoc
          localWriteTime
        = Ok (Some (Document key (Mutation_getPostMutationVersion maybeDoc)
                      (patchReference (fields M) D (baseData maybeDoc)) true))
        /\ PatchMutation_applyToRemoteDocument key D M precondition maybeDoc
             {| version := ack; transformResults := None |}
           = Ok (Some (Document key (Mutation_getPostMutationVersion maybeDoc)
                         (patchReference (fields M) D (baseData maybeDoc))
                         false)))
  /\ PatchMutation_patchDocument a9 maskA
       (Some (Document sampleKey (SnapshotVersion_at 3) a1b2 false))
     = a9b2
  /\ PatchMutation_patchDocument ObjectValue_EMPTY maskA
       (Some (Document sampleKey (SnapshotVersion_at 3) a1b2 false))
     = b2.
Proof.
  split; [apply patchDocument_reference|].
  split.
  { intros p Hin. rewrite patchDocument_reference. unfold ObjectValue_field.
    rewrite patchReference_lookup, decide_True by assumption. reflexivity. }
  split.
  { intros q Hnin. rewrite patchDocument_reference. unfold ObjectValue_field.
    rewrite patchReference_lookup, decide_False by assumption. reflexivity. }
  split.
  { intros D' Hagree. rewrite !patchDocument_reference.
    apply map_eq. intros q. rewrite !patchReference_lookup.
    destruct (decide (q ∈ fields M)) as [Hin|]; [|reflexivity].
    apply Hagree, Hin. }
  split.
  { intros baseDoc localWriteTime ack Hkey Hvalid.
    unfold PatchMutation_applyToLocalView, PatchMutation_applyToRemoteDocument.
    rewrite (verifyKeyMatches_ok _ _ Hkey), Hvalid, patchDocument_reference.
    split; reflexivity. }
  split; vm_compute; reflexivity.
Qed.

(** ** Idempotence of the local view *)

Lemma setAll_union (assignments : list (FieldTransform * FieldValue))
    (m m' : ObjectValue) :
  setAll assignments (m ∪ m') = setAll assignments m ∪ m'.
Proof.
  unfold setAll. revert m.
  induction assignments as [|[[p []] v] rest IH]; intros m; simpl.
  - reflexivity.
  - unfold ObjectValue_set. rewrite insert_union_l. apply IH.
Qed.

Lemma setAll_idempotent (assignments : list (FieldTransform * FieldValue))
    (m : ObjectValue) :
  setAll assignments (setAll assignments m) = setAll assignments m.
Proof.
  assert (Hsplit : forall m0 : ObjectValue,
            setAll assignments m0 = setAll assignments ∅ ∪ m0).
  { intros m0. rewrite <- (setAll_union assignments ∅ m0).
    rewrite (left_id_L ∅ (∪)). reflexivity. }
  rewrite (Hsplit (setAll assignments m)), (Hsplit m).
  rewrite (assoc_L (∪)), (idemp_L (∪)). reflexivity.
Qed.

Lemma localTransformResults_length (fieldTransforms : list FieldTransform)
    (localWriteTime : Timestamp) (baseDoc : option MaybeDocument) :
  length (TransformMutation_localTransformResults fieldTransforms
            localWriteTime baseDoc)
  = length fieldTransforms.
Proof. unfold TransformMutation_localTransformResults. apply length_map. Qed.

Lemma SetMutation_local_idempotent (key : DocumentKey) (value : ObjectValue)
    (pre : Precondition) (d baseDoc : option MaybeDocument) (t : Timestamp) :
  (SetMutation_applyToLocalView key value pre d baseDoc t
     ≫= fun d' => SetMutation_applyToLocalView key value pre d' baseDoc t)
  = SetMutation_applyToLocalView key value pre d baseDoc t.
Proof.
  unfold SetMutation_applyToLocalView.
  destruct (Mutation_verifyKeyMatches key d) as [[]|msg] eqn:Hverify; simpl;
    [|reflexivity].
  destruct (Precondition_isValidFor pre d) eqn:Hvalid; simpl.
  - rewrite DocumentKey_isEqual_refl. simpl.
    case_isValidFor; reflexivity.
  - rewrite Hverify. simpl. rewrite Hvalid. reflexivity.
Qed.

Lemma PatchMutation_local_idempotent (key : DocumentKey) (data : ObjectValue)
    (mask : FieldMask) (pre : Precondition) (d baseDoc : option MaybeDocument)
    (t : Timestamp) :
  (PatchMutation_applyToLocalView key data mask pre d baseDoc t
     ≫= fun d' => PatchMutation_applyToLocalView key data mask pre d' baseDoc t)
  = PatchMutation_applyToLocalView key data mask pre d baseDoc t.
Proof.
  unfold PatchMutation_applyToLocalView.
  destruct (Mutation_verifyKeyMatches key d) as [[]|msg] eqn:Hverify; simpl;
    [|reflexivity].
  destruct (Precondition_isValidFor pre d) eqn:Hvalid; simpl.
  - rewrite DocumentKey_isEqual_refl. simpl.
    case_isValidFor; simpl; [|reflexivity].
    rewrite !patchDocument_reference. simpl.
    rewrite patchReference_idempotent. reflexivity.
  - rewrite Hverify. simpl. rewrite Hvalid. reflexivity.
Qed.

Lemma DeleteMutation_local_idempotent (key : DocumentKey) (pre : Precondition)
    (d baseDoc : option MaybeDocument) (t : Timestamp) :
  (DeleteMutation_applyToLocalView key pre d baseDoc t
     ≫= fun d' => DeleteMutation_applyToLocalView key pre d' baseDoc t)
  = DeleteMutation_applyToLocalView key pre d baseDoc t.
Proof.
  unfold DeleteMutation_applyToLocalView.
  destruct (Mutation_verifyKeyMatches key d) as [[]|msg] eqn:Hverify; simpl;
    [|reflexivity].
  destruct (Precondition_isValidFor pre d) eqn:Hvalid; simpl.
  - assert (Hassert :
      match d with
      | Some doc =>
          assert (DocumentKey_isEqual (MaybeDocument_key doc) key)
            "Can only apply mutation to document with same key"
      | None => Ok tt
      end = Ok tt).
    { destruct d as [doc|]; [|reflexivity]. simpl in Hverify.
      unfold assert in *.
      destruct (DocumentKey_isEqual (MaybeDocument_key doc) key);
        [reflexivity|discriminate Hverify]. }
    rewrite Hassert. simpl. rewrite DocumentKey_isEqual_refl. simpl.
    case_isValidFor; reflexivity.
  - rewrite Hverify. simpl. rewrite Hvalid. reflexivity.
Qed.

Lemma TransformMutation_local_idempotent (key : DocumentKey)
    (fts : list FieldTransform) (d baseDoc : option MaybeDocument)
    (t : Timestamp) :
  (TransformMutation_applyToLocalView key fts d baseDoc t
     ≫= fun d' => TransformMutation_applyToLocalView key fts d' baseDoc t)
  = TransformMutation_applyToLocalView key fts d baseDoc t.
Proof.
  unfold TransformMutation_applyToLocalView.
  destruct d as [[k v data h | k v]|]; simpl; [| |reflexivity].
  - unfold assert. destruct (DocumentKey_isEqual k key) eqn:Hk; simpl;
      [|reflexivity].
    rewrite !transformObject_unfold, localTransformResults_length, Nat.eqb_refl.
    simpl. rewrite DocumentKey_isEqual_refl. simpl.
    rewrite !transformObject_unfold, localTransformResults_length, Nat.eqb_refl.
    simpl. rewrite setAll_idempotent. reflexivity.
  - unfold assert. destruct (DocumentKey_isEqual k key) eqn:Hk; simpl;
      [|reflexivity].
    rewrite Hk. reflexivity.
Qed.

(** C8. applyToLocalView is idempotent for every mutation: with the base
    document and the local write time fixed, applying the mutation to the
    result of applying it to a state gives the result of applying it once
    (a fatal first application stays fatal). *)
Theorem applyToLocalView_idempotent (m : Mutation)
    (d baseDoc : option MaybeDocument) (localWriteTime : Timestamp) :
  (Mutation_applyToLocalView m d baseDoc localWriteTime
     ≫= fun d' => Mutation_applyToLocalView m d' baseDoc localWriteTime)
  = Mutation_applyToLocalView m d baseDoc localWriteTime.
Proof.
  destruct m as [key value pre | key data mask pre | key fts | key pre]; simpl.
  - apply SetMutation_local_idempotent.
  - apply PatchMutation_local_idempotent.
  - apply TransformMutation_local_idempotent.
  - apply DeleteMutation_local_idempotent.
Qed.

(** ** Worked instances *)

Lemma PatchMutation_patch_reference_witness :
  PatchMutation_applyToLocalView sampleKey a9 maskA (Precondition_exists true)
    (Some (Document sampleKey (SnapshotVersion_at 3) a1b2 false)) None
    sampleTime
  = Ok (Some (Document sampleKey (SnapshotVersion_at 3) a9b2 true))
  /\ ObjectValue_field
       (PatchMutation_patchDocument a9 maskA
          (Some (Document sampleKey (SnapshotVersion_at 3) a1b2 false)))
       ["b"]
     = Some (IntegerValue 2).
Proof.
  destruct (PatchMutation_patch_reference sampleKey a9 maskA
              (Precondition_exists true)
              (Some (Document sampleKey (SnapshotVersion_at 3) a1b2 false)))
    as (_ & _ & Hframe & _ & Happly & _).
  split.
  - destruct (Happly None sampleTime None
                (keyMatches_Document sampleKey (SnapshotVersion_at 3) a1b2 false)
                eq_refl) as [Hlocal _].
    rewrite Hlocal. vm_compute. reflexivity.
  - rewrite (Hframe ["b"]).
    + vm_compute. reflexivity.
    + intros Hin. apply list_elem_of_singleton in Hin. discriminate Hin.
Defined.

Lemma TransformMutation_never_creates_witness :
  TransformMutation_applyToLocalView sampleKey [stampA]
    (Some (NoDocument sampleKey (SnapshotVersion_at 3))) None sampleTime
  = Ok (Some (NoDocument sampleKey (SnapshotVersion_at 3)))
  /\ isDocument (Some (Document sampleKey (SnapshotVersion_at 3) a1b2 false)).
Proof.
  destruct (TransformMutation_never_creates sampleKey [stampA] None sampleTime)
    as (_ & _ & Hno & Hdoc).
  split; [apply Hno|].
  apply (Hdoc (Some (Document sampleKey (SnapshotVersion_at 3) a1b2 false))
           (Some (Document sampleKey (SnapshotVersion_at 3)
                    (<[ ["a"] := ServerTimestampValue sampleTime None ]> a1b2)
                    true))).
  - vm_compute. reflexivity.
  - unfold isDocument. eauto.
Defined.

Lemma TransformMutation_applyToRemoteDocument_witness :
  isFatal (TransformMutation_applyToRemoteDocument sampleKey [stampA]
             (Some (Document sampleKey (SnapshotVersion_at 3) a1b2 true))
             {| version := Some (SnapshotVersion_at 4);
                transformResults := Some [] |})
  /\ TransformMutation_applyToRemoteDocument sampleKey [stampA]
       (Some (Document sampleKey (SnapshotVersion_at 3) a1b2 true))
       {| version := Some (SnapshotVersion_at 4);
          transformResults := Some [IntegerValue 9] |}
     = Ok (Some (Document sampleKey (SnapshotVersion_at 3) a9b2 false))
  /\ TransformMutation_applyToRemoteDocument sampleKey [stampA]
       (Some (NoDocument sampleKey (SnapshotVersion_at 3)))
       {| version := Some (SnapshotVersion_at 4);
          transformResults := Some [] |}
     = Ok (Some (NoDocument sampleKey (SnapshotVersion_at 3))).
Proof.
  destruct (TransformMutation_applyToRemoteDocument_spec sampleKey [stampA]
              (Some (Document sampleKey (SnapshotVersion_at 3) a1b2 true))
              (Some (SnapshotVersion_at 4)))
    as (_ & _ & Hfatal & Hok).
  destruct (TransformMutation_applyToRemoteDocument_spec sampleKey [stampA]
              (Some (NoDocument sampleKey (SnapshotVersion_at 3)))
              (Some (SnapshotVersion_at 4)))
    as (_ & Hguard & _ & _).
  split; [|split].
  - apply (Hfatal [] _ _ _ eq_refl). discriminate.
  - rewrite (Hok [IntegerValue 9] _ _ _ eq_refl eq_refl).
    vm_compute. reflexivity.
  - apply (Hguard []);
      [apply keyMatches_NoDocument|reflexivity].
Defined.

Lemma applyToRemoteDocument_ignores_ack_version_witness :
  Mutation_applyToRemoteDocument (SetMutation sampleKey a9 Precondition_NONE)
    (Some (Document sampleKey (SnapshotVersion_at 3) a1b2 true))
    {| version := Some (SnapshotVersion_at 4); transformResults := None |}
  = Mutation_applyToRemoteDocument (SetMutation sampleKey a9 Precondition_NONE)
      (Some (Document sampleKey (SnapshotVersion_at 3) a1b2 true))
      {| version := Some (SnapshotVersion_at 5); transformResults := None |}
  /\ (MaybeDocument_version (Document sampleKey (SnapshotVersion_at 3) a9 false)
      = SnapshotVersion_MIN
      \/ exists prior,
           Some (Document sampleKey (SnapshotVersion_at 3) a1b2 true) = Some prior
           /\ MaybeDocument_version
                (Document sampleKey (SnapshotVersion_at 3) a9 false)
              = MaybeDocument_version prior).
Proof.
  destruct (applyToRemoteDocument_ignores_ack_version
              (SetMutation sampleKey a9 Precondition_NONE)
              (Some (Document sampleKey (SnapshotVersion_at 3) a1b2 true))
              (Some (SnapshotVersion_at 4)) (Some (SnapshotVersion_at 5)) None)
    as [Hsame Hversion].
  split; [exact Hsame|].
  apply Hversion. vm_compute. reflexivity.
Defined.

(** ** What an application returns, read backwards *)

Lemma verifyKeyMatches_ok_inv (key : DocumentKey) (maybeDoc : option MaybeDocument)
    (u : unit) :
  Mutation_verifyKeyMatches key maybeDoc = Ok u -> keyMatches key maybeDoc.
Proof.
  intros Hverify doc ->. simpl in Hverify. unfold assert in Hverify.
  destruct (DocumentKey_isEqual (MaybeDocument_key doc) key) eqn:Hk;
    [|discriminate Hverify].
  now apply DocumentKey_isEqual_true.
Qed.


Lemma postMutationVersion_Document (key : DocumentKey) (v : SnapshotVersion)
    (data : ObjectValue) (h : bool) :
  Mutation_getPostMutationVersion (Some (Document key v data h)) = v.
Proof. reflexivity. Qed.

Ltac unfold_apply :=
  unfold SetMutation_applyToRemoteDocument, SetMutation_applyToLocalView,
    PatchMutation_applyToRemoteDocument, PatchMutation_applyToLocalView,
    TransformMutation_applyToRemoteDocument, TransformMutation_applyToLocalView,
    DeleteMutation_applyToRemoteDocument, DeleteMutation_applyToLocalView in *.

(** Every outcome of the local path: a failed key verification, the input
    returned because the precondition does not hold, or a written document. *)
Lemma applyToLocalView_cases (this : Mutation)
    (maybeDoc baseDoc : option MaybeDocument) (localWriteTime : Timestamp) :
  (exists msg,
      Mutation_verifyKeyMatches (Mutation_key this) maybeDoc = Fatal msg
      /\ Mutation_applyToLocalView this maybeDoc baseDoc localWriteTime
         = Fatal msg)
  \/ (keyMatches (Mutation_key this) maybeDoc
      /\ Precondition_isValidFor (Mutation_precondition this) maybeDoc = false
      /\ Mutation_applyToLocalView this maybeDoc baseDoc localWriteTime
         = Ok maybeDoc)
  \/ (keyMatches (Mutation_key this) maybeDoc
      /\ Precondition_isValidFor (Mutation_precondition this) maybeDoc = true
      /\ ((Mutation_type this <> Delete
           /\ exists data,
                Mutation_applyToLocalView this maybeDoc baseDoc localWriteTime
                = Ok (Some (Document (Mutation_key this)
                              (Mutation_getPostMutationVersion maybeDoc)
                              data true)))
          \/ (Mutation_type this = Delete
              /\ Mutation_applyToLocalView this maybeDoc baseDoc localWriteTime
                 = Ok (Some (NoDocument (Mutation_key this)
                               SnapshotVersion_forDeletedDoc))))).
Proof.
  destruct (Mutation_verifyKeyMatches (Mutation_key this) maybeDoc)
    as [[]|msg] eqn:Hverify.
  2:{ left. exists msg. split; [reflexivity|].
      destruct this; simpl in *; unfold_apply; rewrite Hverify; reflexivity. }
  right. pose proof (verifyKeyMatches_ok_inv _ _ _ Hverify) as Hkey.
  destruct (Precondition_isValidFor (Mutation_precondition this) maybeDoc)
    eqn:Hvalid; [right|left]; (split; [exact Hkey|]); (split; [reflexivity|]).
  - destruct this as [key value pre | key data mask pre | key fts | key pre];
      simpl in *; unfold_apply; rewrite Hverify; simpl.
    + rewrite Hvalid. simpl. left. split; [discriminate|eauto].
    + rewrite Hvalid. simpl. left. split; [discriminate|eauto].
    + left. split; [discriminate|].
      destruct maybeDoc as [[k v d h | k v]|]; try discriminate Hvalid.
      pose proof (Hkey _ eq_refl) as Hk. simpl in Hk. subst k.
      simpl. rewrite DocumentKey_isEqual_refl. simpl.
      rewrite transformObject_unfold, localTransformResults_length, Nat.eqb_refl.
      simpl. eauto.
    + rewrite Hvalid. simpl. right. split; [reflexivity|].
      destruct maybeDoc as [doc|]; [|reflexivity].
      rewrite (Hkey _ eq_refl), DocumentKey_isEqual_refl. reflexivity.
  - destruct this as [key value pre | key data mask pre | key fts | key pre];
      simpl in *; unfold_apply; rewrite Hverify; simpl;
      rewrite Hvalid; reflexivity.
Qed.

(** Every outcome of the remote path that is not an abort. *)
Lemma applyToRemoteDocument_cases (this : Mutation)
    (maybeDoc result : option MaybeDocument) (mutationResult : MutationResult) :
  Mutation_applyToRemoteDocument this maybeDoc mutationResult = Ok result ->
  keyMatches (Mutation_key this) maybeDoc
  /\ ((result = maybeDoc
       /\ Precondition_isValidFor (Mutation_precondition this) maybeDoc = false
       /\ (Mutation_type this = Patch \/ Mutation_type this = Transform))
      \/ (Mutation_type this <> Delete
          /\ exists data,
               result = Some (Document (Mutation_key this)
                                (Mutation_getPostMutationVersion maybeDoc)
                                data false))
      \/ (Mutation_type this = Delete
          /\ result = Some (NoDocument (Mutation_key this) SnapshotVersion_MIN))).
Proof.
  intros Happly.
  destruct (Mutation_verifyKeyMatches (Mutation_key this) maybeDoc)
    as [[]|msg] eqn:Hverify.
  2:{ destruct this; simpl in *; unfold_apply; rewrite Hverify in Happly;
      discriminate Happly. }
  pose proof (verifyKeyMatches_ok_inv _ _ _ Hverify) as Hkey.
  split; [exact Hkey|].
  destruct this as [key value pre | key data mask pre | key fts | key pre];
    simpl in *; unfold_apply; rewrite Hverify in Happly; simpl in Happly.
  - destruct (transformResults mutationResult); simpl in Happly;
      [discriminate|]. simplify_eq. right. left. split; [discriminate|eauto].
  - destruct (transformResults mutationResult); simpl in Happly;
      [discriminate|].
    destruct (Precondition_isValidFor pre maybeDoc) eqn:Hvalid;
      simpl in Happly; simplify_eq.
    + right. left. split; [discriminate|eauto].
    + left. auto.
  - destruct (transformResults mutationResult) as [rs|]; [|discriminate].
    destruct maybeDoc as [[k v d h | k v]|]; simpl in Happly.
    + pose proof (Hkey _ eq_refl) as Hk. simpl in Hk. subst k.
      rewrite DocumentKey_isEqual_refl in Happly. simpl in Happly.
      destruct (TransformMutation_transformObject fts d rs); simpl in Happly;
        [|discriminate].
      simplify_eq. right. left. split; [discriminate|eauto].
    + simplify_eq. left. auto.
    + simplify_eq. left. auto.
  - destruct (transformResults mutationResult); simpl in Happly;
      [discriminate|]. simplify_eq. right. right. auto.
Qed.

(** ** Invariants of both paths *)

(** X1. A document returned by applyToRemoteDocument or by applyToLocalView,
    of any mutation, has the key of the mutation. *)
Theorem apply_result_has_mutation_key (this : Mutation)
    (maybeDoc baseDoc : option MaybeDocument) (mutationResult : MutationResult)
    (localWriteTime : Timestamp) (doc : MaybeDocument) :
  Mutation_applyToRemoteDocument this maybeDoc mutationResult = Ok (Some doc)
  \/ Mutation_applyToLocalView this maybeDoc baseDoc localWriteTime
     = Ok (Some doc) ->
  MaybeDocument_key doc = Mutation_key this.
Proof.
  intros [Hremote | Hlocal].
  - destruct (applyToRemoteDocument_cases _ _ _ _ Hremote)
      as [Hkey [(Heq & _) | [(_ & data & Heq) | (_ & Heq)]]].
    + apply Hkey. congruence.
    + simplify_eq. reflexivity.
    + simplify_eq. reflexivity.
  - destruct (applyToLocalView_cases this maybeDoc baseDoc localWriteTime)
      as [(msg & _ & Hfatal)
         | [(Hkey & _ & Heq)
           | (Hkey & _ & [(_ & data & Heq) | (_ & Heq)])]];
      rewrite Heq in Hlocal || rewrite Hfatal in Hlocal; simplify_eq.
    + apply Hkey. reflexivity.
    + reflexivity.
    + reflexivity.
Qed.

Lemma apply_result_has_mutation_key_witness :
  MaybeDocument_key (Document sampleKey (SnapshotVersion_at 3) a9b2 true)
  = Mutation_key (PatchMutation sampleKey a9 maskA (Precondition_exists true)).
Proof.
  apply (apply_result_has_mutation_key
           (PatchMutation sampleKey a9 maskA (Precondition_exists true))
           (Some (Document sampleKey (SnapshotVersion_at 3) a1b2 false)) None
           {| version := None; transformResults := None |} sampleTime).
  right. vm_compute. reflexivity.
Defined.

(** X2. An application returns null only for a null input, and then only
    when the precondition of the mutation rejects a missing document: no
    path turns a known document into null. *)
Theorem apply_returns_null_only_for_null (this : Mutation)
    (maybeDoc baseDoc : option MaybeDocument) (mutationResult : MutationResult)
    (localWriteTime : Timestamp) :
  Mutation_applyToRemoteDocument this maybeDoc mutationResult = Ok None
  \/ Mutation_applyToLocalView this maybeDoc baseDoc localWriteTime = Ok None ->
  maybeDoc = None
  /\ Precondition_isValidFor (Mutation_precondition this) None = false.
Proof.
  intros [Hremote | Hlocal].
  - destruct (applyToRemoteDocument_cases _ _ _ _ Hremote)
      as [_ [(Heq & Hinvalid & _) | [(_ & data & Heq) | (_ & Heq)]]];
      simplify_eq. auto.
  - destruct (applyToLocalView_cases this maybeDoc baseDoc localWriteTime)
      as [(msg & _ & Hfatal)
         | [(_ & Hinvalid & Heq)
           | (_ & _ & [(_ & data & Heq) | (_ & Heq)])]];
      rewrite Heq in Hlocal || rewrite Hfatal in Hlocal; simplify_eq. auto.
Qed.

Lemma apply_returns_null_only_for_null_witness :
  @None MaybeDocument = None
  /\ Precondition_isValidFor
       (Mutation_precondition (TransformMutation sampleKey [stampA])) None
     = false.
Proof.
  apply (apply_returns_null_only_for_null (TransformMutation sampleKey [stampA])
           None None {| version := None; transformResults := Some [] |}
           sampleTime).
  left. reflexivity.
Defined.



(** X5. Set, Patch and Transform preserve an existing document and its
    version: applied on either path to a Document of version v, whatever
    they return is again a Document of version v, with the mutation's key. *)
Theorem existing_document_keeps_version (this : Mutation)
    (k : DocumentKey) (v : SnapshotVersion) (data : ObjectValue) (h : bool)
    (baseDoc result : option MaybeDocument) (mutationResult : MutationResult)
    (localWriteTime : Timestamp) :
  Mutation_type this <> Delete ->
  Mutation_applyToRemoteDocument this (Some (Document k v data h))
    mutationResult = Ok result
  \/ Mutation_applyToLocalView this (Some (Document k v data h)) baseDoc
       localWriteTime = Ok result ->
  exists data' h', result = Some (Document (Mutation_key this) v data' h').
Proof.
  intros Hkind [Hremote | Hlocal].
  - destruct (applyToRemoteDocument_cases _ _ _ _ Hremote)
      as [Hkey [(Heq & _) | [(_ & data' & Heq) | (Hdel & _)]]].
    + subst result. pose proof (Hkey _ eq_refl) as Hk. simpl in Hk.
      subst k. eauto.
    + subst result. eauto.
    + contradiction.
  - destruct (applyToLocalView_cases this (Some (Document k v data h)) baseDoc
                localWriteTime)
      as [(msg & _ & Hfatal)
         | [(Hkey & _ & Heq)
           | (Hkey & _ & [(_ & data' & Heq) | (Hdel & _)])]].
    + rewrite Hfatal in Hlocal. discriminate Hlocal.
    + rewrite Heq in Hlocal. simplify_eq.
      pose proof (Hkey _ eq_refl) as Hk. simpl in Hk. subst k. eauto.
    + rewrite Heq in Hlocal. simplify_eq. eauto.
    + contradiction.
Qed.

Lemma existing_document_keeps_version_witness :
  exists data' h',
    Some (Document sampleKey (SnapshotVersion_at 3) a9 false)
    = Some (Document
              (Mutation_key (SetMutation sampleKey a9 (Precondition_exists false)))
              (SnapshotVersion_at 3) data' h').
Proof.
  apply (existing_document_keeps_version
           (SetMutation sampleKey a9 (Precondition_exists false))
           sampleKey (SnapshotVersion_at 3) a1b2 true None
           (Some (Document sampleKey (SnapshotVersion_at 3) a9 false))
           {| version := Some (SnapshotVersion_at 8); transformResults := None |}
           sampleTime).
  - discriminate.
  - left. vm_compute. reflexivity.
Defined.

(** X6. The flag hasLocalMutations tells the two paths apart: a Document
    that applyToRemoteDocument returns with the flag set, and one that
    applyToLocalView returns with the flag clear, is the input itself,
    returned unchanged; every document the remote path writes has the flag
    clear and every document the local path writes has it set. *)
Theorem hasLocalMutations_tells_the_path (this : Mutation)
    (maybeDoc baseDoc : option MaybeDocument) (mutationResult : MutationResult)
    (localWriteTime : Timestamp) (k : DocumentKey) (v : SnapshotVersion)
    (data : ObjectValue) :
  (Mutation_applyToRemoteDocument this maybeDoc mutationResult
   = Ok (Some (Document k v data true)) ->
   maybeDoc = Some (Document k v data true))
  /\ (Mutation_applyToLocalView this maybeDoc baseDoc localWriteTime
      = Ok (Some (Document k v data false)) ->
      maybeDoc = Some (Document k v data false)).
Proof.
  split.
  - intros Hremote.
    destruct (applyToRemoteDocument_cases _ _ _ _ Hremote)
      as [_ [(Heq & _) | [(_ & data' & Heq) | (_ & Heq)]]]; simplify_eq.
    reflexivity.
  - intros Hlocal.
    destruct (applyToLocalView_cases this maybeDoc baseDoc localWriteTime)
      as [(msg & _ & Hfatal)
         | [(_ & _ & Heq) | (_ & _ & [(_ & data' & Heq) | (_ & Heq)])]];
      rewrite Heq in Hlocal || rewrite Hfatal in Hlocal; simplify_eq.
    reflexivity.
Qed.

Lemma hasLocalMutations_tells_the_path_witness :
  Some (Document sampleKey (SnapshotVersion_at 3) a1b2 false)
  = Some (Document sampleKey (SnapshotVersion_at 3) a1b2 false).
Proof.
  apply (hasLocalMutations_tells_the_path
           (DeleteMutation sampleKey (Precondition_exists false))
           (Some (Document sampleKey (SnapshotVersion_at 3) a1b2 false)) None
           {| version := None; transformResults := None |} sampleTime
           sampleKey (SnapshotVersion_at 3) a1b2).
  vm_compute. reflexivity.
Defined.

(** X7. For a SetMutation and a PatchMutation whose precondition holds, the
    local view anticipates the remote document: both paths return a
    Document with the same key, version and data, flagged with local
    mutations on the local path and not on the remote one. *)
Theorem local_view_anticipates_remote (this : Mutation)
    (maybeDoc baseDoc : option MaybeDocument) (ack : option SnapshotVersion)
    (localWriteTime : Timestamp) :
  Mutation_type this = Set_ \/ Mutation_type this = Patch ->
  keyMatches (Mutation_key this) maybeDoc ->
  Precondition_isValidFor (Mutation_precondition this) maybeDoc = true ->
  exists data,
    Mutation_applyToLocalView this maybeDoc baseDoc localWriteTime
    = Ok (Some (Document (Mutation_key this)
                  (Mutation_getPostMutationVersion maybeDoc) data true))
    /\ Mutation_applyToRemoteDocument this maybeDoc
         {| version := ack; transformResults := None |}
       = Ok (Some (Document (Mutation_key this)
                     (Mutation_getPostMutationVersion maybeDoc) data false)).
Proof.
  intros Hkind Hkey Hvalid.
  pose proof (verifyKeyMatches_ok _ _ Hkey) as Hverify.
  destruct this as [key value pre | key data mask pre | key fts | key pre];
    simpl in *; try (destruct Hkind; discriminate);
    unfold_apply; rewrite Hverify, Hvalid; simpl; eauto.
Qed.

Lemma local_view_anticipates_remote_witness :
  exists data,
    Mutation_applyToLocalView
      (PatchMutation sampleKey a9 maskA (Precondition_exists true))
      (Some (Document sampleKey (SnapshotVersion_at 3) a1b2 false)) None
      sampleTime
    = Ok (Some (Document
                  (Mutation_key
                     (PatchMutation sampleKey a9 maskA (Precondition_exists true)))
                  (Mutation_getPostMutationVersion
                     (Some (Document sampleKey (SnapshotVersion_at 3) a1b2 false)))
                  data true))
    /\ Mutation_applyToRemoteDocument
         (PatchMutation sampleKey a9 maskA (Precondition_exists true))
         (Some (Document sampleKey (SnapshotVersion_at 3) a1b2 false))
         {| version := Some (SnapshotVersion_at 4); transformResults := None |}
       = Ok (Some (Document
                     (Mutation_key
                        (PatchMutation sampleKey a9 maskA
                           (Precondition_exists true)))
                     (Mutation_getPostMutationVersion
                        (Some (Document sampleKey (SnapshotVersion_at 3) a1b2
                                 false)))
                     data false)).
Proof.
  apply (local_view_anticipates_remote
           (PatchMutation sampleKey a9 maskA (Precondition_exists true))
           (Some (Document sampleKey (SnapshotVersion_at 3) a1b2 false)) None
           (Some (SnapshotVersion_at 4)) sampleTime).
  - right. reflexivity.
  - apply keyMatches_Document.
  - reflexivity.
Defined.

(** ** TransformMutation: the fields a transform writes *)

Lemma setAll_cons (ft : FieldTransform) (v : FieldValue)
    (rest : list (FieldTransform * FieldValue)) (m : ObjectValue) :
  setAll ((ft, v) :: rest) m = setAll rest (ObjectValue_set m (field ft) v).
Proof. unfold setAll. simpl. destruct (transform ft). reflexivity. Qed.

Lemma setAll_lookup_other (assignments : list (FieldTransform * FieldValue))
    (m : ObjectValue) (q : FieldPath) :
  (forall ft v, (ft, v) ∈ assignments -> field ft <> q) ->
  setAll assignments m !! q = m !! q.
Proof.
  revert m. induction assignments as [|[ft v] rest IH]; intros m Hother.
  - reflexivity.
  - rewrite setAll_cons, IH.
    + unfold ObjectValue_set. apply lookup_insert_ne.
      apply (Hother ft v). apply elem_of_cons. auto.
    + intros ft' v' Hin. apply (Hother ft' v'). apply elem_of_cons. auto.
Qed.

(** The value at the path of the i-th assignment is the i-th value, unless a
    later assignment writes the same path. *)
Lemma setAll_lookup_last (assignments : list (FieldTransform * FieldValue))
    (m : ObjectValue) (i : nat) (ft : FieldTransform) (v : FieldValue) :
  assignments !! i = Some (ft, v) ->
  (forall j ft' v', i < j -> assignments !! j = Some (ft', v') ->
                    field ft' <> field ft) ->
  setAll assignments m !! field ft = Some v.
Proof.
  revert m i. induction assignments as [|[ft0 v0] rest IH]; intros m i Hi Hlater.
  - discriminate Hi.
  - rewrite setAll_cons. destruct i as [|i]; simpl in Hi.
    + injection Hi as -> ->. rewrite setAll_lookup_other.
      * unfold ObjectValue_set. apply lookup_insert_eq.
      * intros ft' v' Hin. apply list_elem_of_lookup_1 in Hin as [j Hj].
        apply (Hlater (S j) ft' v'); [lia|exact Hj].
    + apply (IH _ i Hi). intros j ft' v' Hlt Hj.
      apply (Hlater (S j) ft' v'); [lia|exact Hj].
Qed.

Lemma localTransformResults_lookup (fts : list FieldTransform) (t : Timestamp)
    (baseDoc : option MaybeDocument) (i : nat) (ft : FieldTransform) :
  fts !! i = Some ft ->
  TransformMutation_localTransformResults fts t baseDoc !! i
  = Some (ServerTimestampValue t (previousValueOf baseDoc (field ft))).
Proof.
  unfold TransformMutation_localTransformResults.
  revert i. induction fts as [|ft0 fts IH]; intros [|i] Hi; simpl in *;
    try discriminate Hi.
  - injection Hi as ->. destruct (transform ft). reflexivity.
  - apply IH, Hi.
Qed.

Lemma setAll_lookup_agree (assignments : list (FieldTransform * FieldValue))
    (m : ObjectValue) (q : FieldPath) (w : FieldValue) :
  (forall ft v, (ft, v) ∈ assignments -> field ft = q -> v = w) ->
  (exists ft v, (ft, v) ∈ assignments /\ field ft = q) ->
  setAll assignments m !! q = Some w.
Proof.
  revert m. induction assignments as [|[ft0 v0] rest IH];
    intros m Hsame (ft & v & Hin & Hq).
  - apply elem_of_nil in Hin. contradiction.
  - rewrite setAll_cons.
    destruct (decide (q ∈ map (fun a => field (fst a)) rest)) as [Hrest|Hnone].
    + apply IH.
      * intros ft' v' Hin'. apply (Hsame ft' v'). apply elem_of_cons. auto.
      * apply list_elem_of_In, in_map_iff in Hrest as ([ft' v'] & Heq & Hin').
        exists ft', v'. split; [apply list_elem_of_In, Hin'|exact Heq].
    + rewrite setAll_lookup_other.
      * apply elem_of_cons in Hin as [Heq|Hin].
        -- injection Heq as <- <-. subst q. unfold ObjectValue_set.
           rewrite lookup_insert_eq. f_equal.
           apply (Hsame ft v); [apply elem_of_cons; auto|reflexivity].
        -- exfalso. apply Hnone. apply list_elem_of_In, in_map_iff.
           exists (ft, v). split; [exact Hq|apply list_elem_of_In, Hin].
      * intros ft' v' Hin' Heq. apply Hnone.
        apply list_elem_of_In, in_map_iff.
        exists (ft', v'). split; [exact Heq|apply list_elem_of_In, Hin'].
Qed.

(** X8. Applied locally to a Document with its key, a TransformMutation
    returns a Document with the same version, flagged with local mutations,
    in which every transformed field holds the placeholder
    ServerTimestampValue(localWriteTime, previous value), the previous value
    being the one of the base document (not of the document transformed),
    and every other field is as before.  No assertion fails, whatever the
    field transforms are. *)
Theorem TransformMutation_local_fields (key : DocumentKey)
    (fieldTransforms : list FieldTransform) (v : SnapshotVersion)
    (data : ObjectValue) (h : bool) (baseDoc : option MaybeDocument)
    (localWriteTime : Timestamp) :
  exists data',
    TransformMutation_applyToLocalView key fieldTransforms
      (Some (Document key v data h)) baseDoc localWriteTime
    = Ok (Some (Document key v data' true))
    /\ (forall ft, ft ∈ fieldTransforms ->
          ObjectValue_field data' (field ft)
          = Some (ServerTimestampValue localWriteTime
                    (previousValueOf baseDoc (field ft))))
    /\ (forall q, (forall ft, ft ∈ fieldTransforms -> field ft <> q) ->
          ObjectValue_field data' q = ObjectValue_field data q).
Proof.
  set (results := TransformMutation_localTransformResults fieldTransforms
                    localWriteTime baseDoc).
  exists (setAll (zip fieldTransforms results) data).
  assert (Hzip : forall ft r, (ft, r) ∈ zip fieldTransforms results ->
            ft ∈ fieldTransforms
            /\ r = ServerTimestampValue localWriteTime
                     (previousValueOf baseDoc (field ft))).
  { intros ft r Hin. apply list_elem_of_lookup_1 in Hin as [i Hi].
    apply lookup_zip_Some in Hi as [Hft Hr]. split.
    - apply (list_elem_of_lookup_2 _ i), Hft.
    - unfold results in Hr.
      rewrite (localTransformResults_lookup _ _ _ _ _ Hft) in Hr.
      congruence. }
  split; [|split].
  - unfold TransformMutation_applyToLocalView.
    rewrite (verifyKeyMatches_ok _ _ (keyMatches_Document key v data h)).
    simpl. rewrite DocumentKey_isEqual_refl. simpl.
    rewrite transformObject_unfold, localTransformResults_length, Nat.eqb_refl.
    reflexivity.
  - intros ft Hin. unfold ObjectValue_field. apply setAll_lookup_agree.
    + intros ft' r Hin' Heq. destruct (Hzip _ _ Hin') as [_ ->]. congruence.
    + apply list_elem_of_lookup_1 in Hin as [i Hi].
      exists ft, (ServerTimestampValue localWriteTime
                    (previousValueOf baseDoc (field ft))).
      split; [|reflexivity].
      apply (list_elem_of_lookup_2 _ i). apply lookup_zip_Some. split; [exact Hi|].
      apply localTransformResults_lookup, Hi.
  - intros q Hother. unfold ObjectValue_field. apply setAll_lookup_other.
    intros ft r Hin. apply Hother. apply (Hzip _ _ Hin).
Qed.

Lemma TransformMutation_local_fields_witness :
  exists data',
    TransformMutation_applyToLocalView sampleKey sampleTransforms
      (Some (Document sampleKey (SnapshotVersion_at 3) a1b2 false))
      (Some (Document sampleKey (SnapshotVersion_at 2) a9 false)) sampleTime
    = Ok (Some (Document sampleKey (SnapshotVersion_at 3) data' true))
    /\ ObjectValue_field data' ["a"]
       = Some (ServerTimestampValue sampleTime (Some (IntegerValue 9)))
    /\ ObjectValue_field data' ["b"]
       = Some (ServerTimestampValue sampleTime None).
Proof.
  destruct (TransformMutation_local_fields sampleKey sampleTransforms
              (SnapshotVersion_at 3) a1b2 false
              (Some (Document sampleKey (SnapshotVersion_at 2) a9 false))
              sampleTime)
    as (data' & Happly & Hfields & _).
  exists data'. split; [exact Happly|]. split.
  - apply (Hfields stampA). apply elem_of_cons. auto.
  - apply (Hfields {| field := ["b"]; transform := ServerTimestampTransform |}).
    apply elem_of_cons. right. apply elem_of_cons. auto.
Defined.

(** X9. Applied remotely to a Document with its key, with as many transform
    results as field transforms, a TransformMutation returns a Document
    with the same version and no local mutations in which the field of the
    i-th transform holds the i-th result, unless a later transform names the
    same field (the last one wins), and every field that no transform names
    is as before. *)
Theorem TransformMutation_remote_fields (key : DocumentKey)
    (fieldTransforms : list FieldTransform) (v : SnapshotVersion)
    (data : ObjectValue) (h : bool) (ack : option SnapshotVersion)
    (results : list FieldValue) :
  length results = length fieldTransforms ->
  exists data',
    TransformMutation_applyToRemoteDocument key fieldTransforms
      (Some (Document key v data h))
      {| version := ack; transformResults := Some results |}
    = Ok (Some (Document key v data' false))
    /\ (forall i ft r,
          fieldTransforms !! i = Some ft -> results !! i = Some r ->
          (forall j ft', i < j -> fieldTransforms !! j = Some ft' ->
                         field ft' <> field ft) ->
          ObjectValue_field data' (field ft) = Some r)
    /\ (forall q, (forall ft, ft ∈ fieldTransforms -> field ft <> q) ->
          ObjectValue_field data' q = ObjectValue_field data q).
Proof.
  intros Hlen. exists (setAll (zip fieldTransforms results) data).
  split; [|split].
  - unfold TransformMutation_applyToRemoteDocument.
    rewrite (verifyKeyMatches_ok _ _ (keyMatches_Document key v data h)).
    simpl. rewrite DocumentKey_isEqual_refl. simpl.
    rewrite transformObject_unfold, Hlen, Nat.eqb_refl. reflexivity.
  - intros i ft r Hft Hr Hlater. unfold ObjectValue_field.
    apply (setAll_lookup_last _ _ i).
    + apply lookup_zip_Some. auto.
    + intros j ft' r' Hlt Hj. apply lookup_zip_Some in Hj as [Hj _].
      apply (Hlater j ft' Hlt Hj).
  - intros q Hother. unfold ObjectValue_field. apply setAll_lookup_other.
    intros ft r Hin. apply Hother.
    apply list_elem_of_lookup_1 in Hin as [i Hi].
    apply lookup_zip_Some in Hi as [Hi _].
    apply (list_elem_of_lookup_2 _ i), Hi.
Qed.

Lemma TransformMutation_remote_fields_witness :
  exists data',
    TransformMutation_applyToRemoteDocument sampleKey sampleTransforms
      (Some (Document sampleKey (SnapshotVersion_at 3) a1b2 true))
      {| version := Some (SnapshotVersion_at 4);
         transformResults := Some [IntegerValue 7; IntegerValue 8] |}
    = Ok (Some (Document sampleKey (SnapshotVersion_at 3) data' false))
    /\ ObjectValue_field data' ["b"] = Some (IntegerValue 8).
Proof.
  destruct (TransformMutation_remote_fields sampleKey sampleTransforms
              (SnapshotVersion_at 3) a1b2 true (Some (SnapshotVersion_at 4))
              [IntegerValue 7; IntegerValue 8] eq_refl)
    as (data' & Happly & Hfields & _).
  exists data'. split; [exact Happly|].
  apply (Hfields 1 {| field := ["b"]; transform := ServerTimestampTransform |}
           (IntegerValue 8) eq_refl eq_refl).
  intros [|[|j]] ft' Hlt Hj; try lia. discriminate Hj.
Defined.

(** ** Equality of mutations *)

Lemma Mutation_isEqual_true_iff (a b : Mutation) :
  Mutation_isEqual a b = true <-> withoutPatchData a = withoutPatchData b.
Proof.
  destruct a, b; simpl; try (split; [discriminate|discriminate]);
    repeat rewrite andb_true_iff;
    rewrite ?DocumentKey_isEqual_true, ?ObjectValue_isEqual_true,
      ?Precondition_isEqual_true, ?FieldMask_isEqual_true,
      ?(misc_arrayEquals_true _ FieldTransform_isEqual_true);
    (split; [intuition congruence|intros H; injection H; intuition congruence]).
Qed.

(** X10. Mutation.isEqual is an equivalence relation on mutations, and
    mutations it holds equal have the same type, key and precondition. *)
Theorem Mutation_isEqual_equivalence :
  (forall a, Mutation_isEqual a a = true)
  /\ (forall a b, Mutation_isEqual a b = Mutation_isEqual b a)
  /\ (forall a b c,
        Mutation_isEqual a b = true -> Mutation_isEqual b c = true ->
        Mutation_isEqual a c = true)
  /\ (forall a b,
        Mutation_isEqual a b = true ->
        Mutation_type a = Mutation_type b
        /\ Mutation_key a = Mutation_key b
        /\ Mutation_precondition a = Mutation_precondition b).
Proof.
  split; [|split; [|split]].
  - intros a. now apply Mutation_isEqual_true_iff.
  - intros a b.
    destruct (Mutation_isEqual a b) eqn:Hab, (Mutation_isEqual b a) eqn:Hba;
      try reflexivity.
    + apply Mutation_isEqual_true_iff in Hab. symmetry in Hab.
      apply Mutation_isEqual_true_iff in Hab. congruence.
    + apply Mutation_isEqual_true_iff in Hba. symmetry in Hba.
      apply Mutation_isEqual_true_iff in Hba. congruence.
  - intros a b c Hab Hbc. apply Mutation_isEqual_true_iff.
    apply Mutation_isEqual_true_iff in Hab, Hbc. congruence.
  - intros a b Hab. apply Mutation_isEqual_true_iff in Hab.
    destruct a, b; simpl in Hab; simplify_eq; auto.
Qed.

(** X11. For a SetMutation, a TransformMutation and a DeleteMutation,
    isEqual is sound: the mutations it holds equal are the same mutation,
    and so give the same result on both paths. *)
Theorem Mutation_isEqual_sound (a b : Mutation) :
  Mutation_type a <> Patch ->
  Mutation_isEqual a b = true ->
  a = b
  /\ (forall maybeDoc mutationResult,
        Mutation_applyToRemoteDocument a maybeDoc mutationResult
        = Mutation_applyToRemoteDocument b maybeDoc mutationResult)
  /\ (forall maybeDoc baseDoc localWriteTime,
        Mutation_applyToLocalView a maybeDoc baseDoc localWriteTime
        = Mutation_applyToLocalView b maybeDoc baseDoc localWriteTime).
Proof.
  intros Hkind Hab. apply Mutation_isEqual_true_iff in Hab.
  assert (a = b) as ->; [|auto].
  destruct a, b; simpl in *; congruence.
Qed.

Lemma Mutation_isEqual_sound_witness :
  SetMutation sampleKey a9 (Precondition_exists true)
  = SetMutation {| path := ["rooms"; "eros"] |} (<[ ["a"] := IntegerValue 9 ]> ∅)
      {| updateTime := None; exists_ := Some true |}
  /\ (forall maybeDoc mutationResult,
        Mutation_applyToRemoteDocument
          (SetMutation sampleKey a9 (Precondition_exists true))
          maybeDoc mutationResult
        = Mutation_applyToRemoteDocument
            (SetMutation {| path := ["rooms"; "eros"] |}
               (<[ ["a"] := IntegerValue 9 ]> ∅)
               {| updateTime := None; exists_ := Some true |})
            maybeDoc mutationResult)
  /\ (forall maybeDoc baseDoc localWriteTime,
        Mutation_applyToLocalView
          (SetMutation sampleKey a9 (Precondition_exists true))
          maybeDoc baseDoc localWriteTime
        = Mutation_applyToLocalView
            (SetMutation {| path := ["rooms"; "eros"] |}
               (<[ ["a"] := IntegerValue 9 ]> ∅)
               {| updateTime := None; exists_ := Some true |})
            maybeDoc baseDoc localWriteTime).
Proof.
  apply (Mutation_isEqual_sound
           (SetMutation sampleKey a9 (Precondition_exists true))).
  - discriminate.
  - vm_compute. reflexivity.
Defined.

(** ** Mutations in sequence *)

Lemma isValidFor_Document_version (pre : Precondition) (k k' : DocumentKey)
    (v : SnapshotVersion) (d d' : ObjectValue) (h h' : bool) :
  Precondition_isValidFor pre (Some (Document k v d h))
  = Precondition_isValidFor pre (Some (Document k' v d' h')).
Proof. reflexivity. Qed.

(** X12. A TransformMutation that follows a SetMutation whose precondition
    held always applies: the local view after the two is the Document that
    the set wrote, with the transformed fields set to their placeholders.
    After a PatchMutation with precondition exists(true) that found no
    Document, the transform does nothing either and the input comes back. *)
Theorem transform_after_set_applies (key : DocumentKey) (value : ObjectValue)
    (fieldTransforms : list FieldTransform)
    (maybeDoc baseDoc : option MaybeDocument) (localWriteTime : Timestamp) :
  keyMatches key maybeDoc ->
  (forall precondition,
      Precondition_isValidFor precondition maybeDoc = true ->
      applyLocallyInSequence (SetMutation key value precondition)
        (TransformMutation key fieldTransforms) maybeDoc baseDoc localWriteTime
      = Ok (Some (Document key (Mutation_getPostMutationVersion maybeDoc)
                    (setAll
                       (zip fieldTransforms
                          (TransformMutation_localTransformResults
                             fieldTransforms localWriteTime baseDoc))
                       value)
                    true)))
  /\ (forall data fieldMask,
        ~ isDocument maybeDoc ->
        applyLocallyInSequence
          (PatchMutation key data fieldMask (Precondition_exists true))
          (TransformMutation key fieldTransforms) maybeDoc baseDoc
          localWriteTime
        = Ok maybeDoc).
Proof.
  intros Hkey. pose proof (verifyKeyMatches_ok _ _ Hkey) as Hverify. split.
  - intros pre Hvalid. unfold applyLocallyInSequence. simpl.
    unfold SetMutation_applyToLocalView. rewrite Hverify, Hvalid. simpl.
    unfold TransformMutation_applyToLocalView.
    rewrite (verifyKeyMatches_ok _ _ (keyMatches_Document key _ value true)).
    simpl. rewrite DocumentKey_isEqual_refl. simpl.
    rewrite transformObject_unfold, localTransformResults_length, Nat.eqb_refl.
    reflexivity.
  - intros data mask Hnodoc. unfold applyLocallyInSequence. simpl.
    assert (Hinvalid :
      Precondition_isValidFor (Precondition_exists true) maybeDoc = false).
    { destruct (Precondition_isValidFor (Precondition_exists true) maybeDoc)
        eqn:E; [|reflexivity].
      apply isValidFor_exists_true in E. contradiction. }
    unfold PatchMutation_applyToLocalView. rewrite Hverify, Hinvalid. simpl.
    unfold TransformMutation_applyToLocalView.
    rewrite Hverify. simpl.
    unfold TransformMutation_precondition. rewrite Hinvalid. reflexivity.
Qed.

Lemma transform_after_set_applies_witness :
  (forall precondition,
      Precondition_isValidFor precondition
        (Some (NoDocument sampleKey (SnapshotVersion_at 3))) = true ->
      applyLocallyInSequence (SetMutation sampleKey a1b2 precondition)
        (TransformMutation sampleKey [stampA])
        (Some (NoDocument sampleKey (SnapshotVersion_at 3))) None sampleTime
      = Ok (Some (Document sampleKey
                    (Mutation_getPostMutationVersion
                       (Some (NoDocument sampleKey (SnapshotVersion_at 3))))
                    (setAll
                       (zip [stampA]
                          (TransformMutation_localTransformResults [stampA]
                             sampleTime None))
                       a1b2)
                    true)))
  /\ (forall data fieldMask,
        ~ isDocument (Some (NoDocument sampleKey (SnapshotVersion_at 3))) ->
        applyLocallyInSequence
          (PatchMutation sampleKey data fieldMask (Precondition_exists true))
          (TransformMutation sampleKey [stampA])
          (Some (NoDocument sampleKey (SnapshotVersion_at 3))) None sampleTime
        = Ok (Some (NoDocument sampleKey (SnapshotVersion_at 3)))).
Proof.
  apply (transform_after_set_applies sampleKey a1b2 [stampA]
           (Some (NoDocument sampleKey (SnapshotVersion_at 3))) None sampleTime).
  apply keyMatches_NoDocument.
Defined.

(** X13. A later SetMutation without precondition overrides what a Set,
    Patch or Transform with the same key did before it: the local view
    after the two is the local view of the set alone (and an abort of the
    first is the abort of the set). *)
Theorem set_overrides_earlier_writes (first : Mutation) (value : ObjectValue)
    (maybeDoc baseDoc : option MaybeDocument) (localWriteTime : Timestamp) :
  Mutation_type first <> Delete ->
  applyLocallyInSequence first
    (SetMutation (Mutation_key first) value Precondition_NONE)
    maybeDoc baseDoc localWriteTime
  = Mutation_applyToLocalView
      (SetMutation (Mutation_key first) value Precondition_NONE)
      maybeDoc baseDoc localWriteTime.
Proof.
  intros Hkind. unfold applyLocallyInSequence.
  destruct (applyToLocalView_cases first maybeDoc baseDoc localWriteTime)
    as [(msg & Hverify & Hfatal)
       | [(Hkey & _ & Heq)
         | (Hkey & _ & [(_ & data & Heq) | (Hdel & _)])]].
  - rewrite Hfatal. simpl. unfold SetMutation_applyToLocalView.
    rewrite Hverify. reflexivity.
  - rewrite Heq. reflexivity.
  - rewrite Heq. simpl. unfold SetMutation_applyToLocalView.
    rewrite (verifyKeyMatches_ok _ _ Hkey),
      (verifyKeyMatches_ok _ _ (keyMatches_Document (Mutation_key first) _ data true)).
    reflexivity.
  - contradiction.
Qed.

Lemma set_overrides_earlier_writes_witness :
  applyLocallyInSequence
    (PatchMutation sampleKey a9 maskA Precondition_NONE)
    (SetMutation
       (Mutation_key (PatchMutation sampleKey a9 maskA Precondition_NONE))
       b2 Precondition_NONE)
    None None sampleTime
  = Mutation_applyToLocalView
      (SetMutation
         (Mutation_key (PatchMutation sampleKey a9 maskA Precondition_NONE))
         b2 Precondition_NONE)
      None None sampleTime.
Proof.
  apply (set_overrides_earlier_writes
           (PatchMutation sampleKey a9 maskA Precondition_NONE) b2 None None
           sampleTime).
  discriminate.
Defined.

(** X14. A delete resets the version: a SetMutation without precondition
    that follows a DeleteMutation writes a Document at version MIN, on the
    local path (when the precondition of the delete held) and on the remote
    path, whatever the version of the document deleted. *)
Theorem set_after_delete_resets_version (key : DocumentKey)
    (value : ObjectValue) (precondition : Precondition)
    (maybeDoc baseDoc : option MaybeDocument)
    (ack1 ack2 : option SnapshotVersion) (localWriteTime : Timestamp) :
  keyMatches key maybeDoc ->
  (Precondition_isValidFor precondition maybeDoc = true ->
   applyLocallyInSequence (DeleteMutation key precondition)
     (SetMutation key value Precondition_NONE) maybeDoc baseDoc localWriteTime
   = Ok (Some (Document key SnapshotVersion_MIN value true)))
  /\ (Mutation_applyToRemoteDocument (DeleteMutation key precondition) maybeDoc
        {| version := ack1; transformResults := None |}
        ≫= fun deleted =>
             Mutation_applyToRemoteDocument
               (SetMutation key value Precondition_NONE) deleted
               {| version := ack2; transformResults := None |})
     = Ok (Some (Document key SnapshotVersion_MIN value false)).
Proof.
  intros Hkey. pose proof (verifyKeyMatches_ok _ _ Hkey) as Hverify. split.
  - intros Hvalid. unfold applyLocallyInSequence. simpl.
    unfold DeleteMutation_applyToLocalView. rewrite Hverify, Hvalid. simpl.
    assert (Hassert :
      match maybeDoc with
      | Some doc =>
          assert (DocumentKey_isEqual (MaybeDocument_key doc) key)
            "Can only apply mutation to document with same key"
      | None => Ok tt
      end = Ok tt).
    { destruct maybeDoc as [doc|]; [|reflexivity].
      rewrite (Hkey _ eq_refl), DocumentKey_isEqual_refl. reflexivity. }
    rewrite Hassert. simpl. unfold SetMutation_applyToLocalView. simpl.
    rewrite DocumentKey_isEqual_refl. reflexivity.
  - simpl. unfold DeleteMutation_applyToRemoteDocument. rewrite Hverify. simpl.
    unfold SetMutation_applyToRemoteDocument. simpl.
    rewrite DocumentKey_isEqual_refl. reflexivity.
Qed.

Lemma set_after_delete_resets_version_witness :
  (Precondition_isValidFor (Precondition_exists true)
     (Some (Document sampleKey (SnapshotVersion_at 3) a1b2 false)) = true ->
   applyLocallyInSequence (DeleteMutation sampleKey (Precondition_exists true))
     (SetMutation sampleKey a9 Precondition_NONE)
     (Some (Document sampleKey (SnapshotVersion_at 3) a1b2 false)) None
     sampleTime
   = Ok (Some (Document sampleKey SnapshotVersion_MIN a9 true)))
  /\ (Mutation_applyToRemoteDocument
        (DeleteMutation sampleKey (Precondition_exists true))
        (Some (Document sampleKey (SnapshotVersion_at 3) a1b2 false))
        {| version := None; transformResults := None |}
        ≫= fun deleted =>
             Mutation_applyToRemoteDocument
               (SetMutation sampleKey a9 Precondition_NONE) deleted
               {| version := Some (SnapshotVersion_at 5);
                  transformResults := None |})
     = Ok (Some (Document sampleKey SnapshotVersion_MIN a9 false)).
Proof.
  apply (set_after_delete_resets_version sampleKey a9 (Precondition_exists true)
           (Some (Document sampleKey (SnapshotVersion_at 3) a1b2 false)) None
           None (Some (SnapshotVersion_at 5)) sampleTime).
  apply keyMatches_Document.
Defined.

(** X15. Of two PatchMutations with the same mask applied in a row to a
    Document, the later one decides: when its precondition holds for the
    Document, the local view after the two is the local view of the later
    patch alone. *)
Theorem later_patch_with_same_mask_overrides (key : DocumentKey)
    (data1 data2 : ObjectValue) (fieldMask : FieldMask)
    (precondition1 precondition2 : Precondition)
    (v : SnapshotVersion) (data : ObjectValue) (h : bool)
    (baseDoc : option MaybeDocument) (localWriteTime : Timestamp) :
  Precondition_isValidFor precondition2 (Some (Document key v data h)) = true ->
  applyLocallyInSequence
    (PatchMutation key data1 fieldMask precondition1)
    (PatchMutation key data2 fieldMask precondition2)
    (Some (Document key v data h)) baseDoc localWriteTime
  = Mutation_applyToLocalView
      (PatchMutation key data2 fieldMask precondition2)
      (Some (Document key v data h)) baseDoc localWriteTime.
Proof.
  intros Hvalid2. unfold applyLocallyInSequence. simpl.
  unfold PatchMutation_applyToLocalView.
  rewrite (verifyKeyMatches_ok _ _ (keyMatches_Document key v data h)). simpl.
  destruct (Precondition_isValidFor precondition1 _) eqn:Hvalid1; simpl.
  - rewrite DocumentKey_isEqual_refl. simpl.
    rewrite (isValidFor_Document_version precondition2 key key v _ data true h),
      Hvalid2.
    simpl. rewrite !patchDocument_reference. simpl.
    f_equal. f_equal. f_equal.
    apply map_eq. intros q. rewrite !patchReference_lookup.
    destruct (decide (q ∈ fields fieldMask)); reflexivity.
  - rewrite DocumentKey_isEqual_refl. simpl. rewrite Hvalid2. reflexivity.
Qed.

Lemma later_patch_with_same_mask_overrides_witness :
  applyLocallyInSequence
    (PatchMutation sampleKey a9 maskA Precondition_NONE)
    (PatchMutation sampleKey ObjectValue_EMPTY maskA (Precondition_exists true))
    (Some (Document sampleKey (SnapshotVersion_at 3) a1b2 false)) None
    sampleTime
  = Mutation_applyToLocalView
      (PatchMutation sampleKey ObjectValue_EMPTY maskA (Precondition_exists true))
      (Some (Document sampleKey (SnapshotVersion_at 3) a1b2 false)) None
      sampleTime.
Proof.
  apply (later_patch_with_same_mask_overrides sampleKey a9 ObjectValue_EMPTY
           maskA Precondition_NONE (Precondition_exists true)
           (SnapshotVersion_at 3) a1b2 false None sampleTime).
  reflexivity.
Defined.

(** X16. applyToRemoteDocument is idempotent for every mutation: applying a
    mutation with the same acknowledgement to the document it returned
    gives that document again. *)
Theorem applyToRemoteDocument_idempotent (this : Mutation)
    (maybeDoc : option MaybeDocument) (mutationResult : MutationResult) :
  (Mutation_applyToRemoteDocument this maybeDoc mutationResult
     ≫= fun applied =>
          Mutation_applyToRemoteDocument this applied mutationResult)
  = Mutation_applyToRemoteDocument this maybeDoc mutationResult.
Proof.
  destruct this as [key value pre | key data mask pre | key fts | key pre];
    simpl; unfold_apply;
    destruct (Mutation_verifyKeyMatches key maybeDoc) as [[]|msg] eqn:Hverify;
    simpl; try reflexivity.
  - destruct (transformResults mutationResult); simpl; [reflexivity|].
    rewrite DocumentKey_isEqual_refl. reflexivity.
  - destruct (transformResults mutationResult); simpl; [reflexivity|].
    destruct (Precondition_isValidFor pre maybeDoc) eqn:Hvalid; simpl.
    + rewrite DocumentKey_isEqual_refl. simpl.
      case_isValidFor; simpl; [|reflexivity].
      rewrite !patchDocument_reference. simpl.
      rewrite patchReference_idempotent. reflexivity.
    + rewrite Hverify. simpl. rewrite Hvalid. reflexivity.
  - destruct (transformResults mutationResult) as [rs|]; [|reflexivity].
    destruct maybeDoc as [[k v d h | k v]|]; simpl.
    + pose proof (verifyKeyMatches_ok_inv _ _ _ Hverify _ eq_refl) as Hk.
      simpl in Hk. subst k. rewrite DocumentKey_isEqual_refl. simpl.
      rewrite !transformObject_unfold.
      destruct (Nat.eqb (length rs) (length fts)) eqn:Hlen; simpl;
        [|reflexivity].
      rewrite DocumentKey_isEqual_refl. simpl.
      rewrite !transformObject_unfold, Hlen. simpl.
      rewrite setAll_idempotent. reflexivity.
    + pose proof (verifyKeyMatches_ok_inv _ _ _ Hverify _ eq_refl) as Hk.
      simpl in Hk. subst k. rewrite DocumentKey_isEqual_refl. reflexivity.
    + reflexivity.
  - destruct (transformResults mutationResult); simpl; [reflexivity|].
    rewrite DocumentKey_isEqual_refl. reflexivity.
Qed.

(** ** Messaging: isTokenValid *)

(** X17. isTokenValid compares the VAPID key, the endpoint, the auth secret
    and the p256dh key of the stored and the current subscription options
    and nothing else: it is reflexive, symmetric and transitive, and a
    change of the service worker scope alone leaves a stored token valid. *)
Theorem isTokenValid_equivalence :
  (forall a, isTokenValid a a = true)
  /\ (forall a b, isTokenValid a b = isTokenValid b a)
  /\ (forall a b c,
        isTokenValid a b = true -> isTokenValid b c = true ->
        isTokenValid a c = true)
  /\ (forall a b scope,
        isTokenValid a
          {| vapidKey := vapidKey b; swScope := scope; endpoint := endpoint b;
             auth := auth b; p256dh := p256dh b |}
        = isTokenValid a b)
  /\ (forall a b,
        isTokenValid a b = true
        <-> vapidKey a = vapidKey b /\ endpoint a = endpoint b
            /\ auth a = auth b /\ p256dh a = p256dh b).
Proof.
  assert (Hiff : forall a b,
            isTokenValid a b = true
            <-> vapidKey a = vapidKey b /\ endpoint a = endpoint b
                /\ auth a = auth b /\ p256dh a = p256dh b).
  { intros a b. unfold isTokenValid.
    rewrite !andb_true_iff, !bool_decide_eq_true. intuition congruence. }
  split; [|split; [|split; [|split]]].
  - intros a. apply Hiff. auto.
  - intros a b.
    destruct (isTokenValid a b) eqn:Hab, (isTokenValid b a) eqn:Hba;
      try reflexivity.
    + apply Hiff in Hab. assert (isTokenValid b a = true) as Hba'
        by (apply Hiff; intuition congruence). congruence.
    + apply Hiff in Hba. assert (isTokenValid a b = true) as Hab'
        by (apply Hiff; intuition congruence). congruence.
  - intros a b c Hab Hbc. apply Hiff in Hab, Hbc. apply Hiff.
    intuition congruence.
  - intros a b scope. reflexivity.
  - exact Hiff.
Qed.

(** ** The empty precondition *)

(** X18. The empty precondition is the only one that is valid for every
    document: a precondition accepts the absent document, every NoDocument
    and every Document exactly when isNone holds for it. *)
Theorem Precondition_isNone_iff_always_valid (this : Precondition) :
  Precondition_isNone this = true
  <-> forall maybeDoc, Precondition_isValidFor this maybeDoc = true.
Proof.
  destruct this as [[u|] [[|]|]]; simpl; split; try reflexivity;
    try discriminate; intros Hall.
  - specialize (Hall None). discriminate Hall.
  - specialize (Hall None). discriminate Hall.
  - specialize (Hall None). discriminate Hall.
  - specialize (Hall None). discriminate Hall.
  - specialize (Hall (Some (Document sampleKey SnapshotVersion_MIN ∅ false))).
    discriminate Hall.
Qed.
